(** * gemini-qa-agent: the tool dispatcher and the external-assistant invoker

    A shallow embedding of [src/gemini-qa-agent/server.py] and the
    properties of it that the specification states.

    Conventions of the embedding.
    - A Python [str] is a [string]; its elements stand for characters.  A
      character outside ASCII in a literal (the status glyphs) is written as
      its UTF-8 bytes, which keeps prefixes and substrings what they are in
      Python.
    - The functions of the Python standard library that the server calls
      ([os.path.splitext], [os.path.basename], [os.path.join],
      [os.path.expanduser], [str.replace], ...) are written out after
      CPython's [posixpath] and [str] methods; what the operating system
      answers (file system, child process, password database) is read from
      a record of oracles.
    - Logging is not modelled: it writes to the standard error stream only. *)

From Stdlib Require Import String Ascii ZArith Lia List Bool.
From stdpp Require Import base option list gmap strings pretty.

(** ** Python strings *)

Module PyStr.

Definition nl : string := String "010" "".

(** [s.startswith(p)] *)
Definition startswith (s p : string) : bool := String.prefix p s.

(** [sub in s] : [sub] occurs in [s] as a contiguous substring. *)
Fixpoint contains (sub s : string) : bool :=
  String.prefix sub s ||
  match s with
  | EmptyString => false
  | String _ s' => contains sub s'
  end.

(** [s[:n]] and [s[n:]] for [0 <= n]. *)
Fixpoint str_take (n : nat) (s : string) : string :=
  match n, s with
  | S n', String a s' => String a (str_take n' s')
  | _, _ => EmptyString
  end.

Fixpoint str_drop (n : nat) (s : string) : string :=
  match n, s with
  | S n', String _ s' => str_drop n' s'
  | _, _ => s
  end.

(** Python slices with indices that may be negative only through a failed
    search are never taken by the server; the indices here are the
    non-negative ones. *)
Definition slice_to (i : Z) (s : string) : string := str_take (Z.to_nat i) s.
Definition slice_from (i : Z) (s : string) : string := str_drop (Z.to_nat i) s.
Definition slice (i j : Z) (s : string) : string :=
  str_take (Z.to_nat (j - i)) (str_drop (Z.to_nat i) s).

(** [s.rfind(c)] for a one-character [c]: the highest index, or [-1]. *)
Fixpoint rfind (c : ascii) (s : string) : Z :=
  match s with
  | EmptyString => (-1)%Z
  | String a s' =>
      let r := rfind c s' in
      if (0 <=? r)%Z then (r + 1)%Z
      else if Ascii.eqb a c then 0%Z else (-1)%Z
  end.

(** [s.find(c)] for a one-character [c]: the lowest index, or [-1]. *)
Fixpoint find (c : ascii) (s : string) : Z :=
  match s with
  | EmptyString => (-1)%Z
  | String a s' =>
      if Ascii.eqb a c then 0%Z
      else let r := find c s' in if (0 <=? r)%Z then (r + 1)%Z else (-1)%Z
  end.

(** [s.find(c, start)] for [0 <= start]. *)
Definition find_from (c : ascii) (start : Z) (s : string) : Z :=
  let r := find c (slice_from start s) in
  if (0 <=? r)%Z then (r + start)%Z else (-1)%Z.

(** [s.rstrip(c)] for a one-character [c]. *)
Fixpoint rstrip (c : ascii) (s : string) : string :=
  match s with
  | EmptyString => EmptyString
  | String a s' =>
      match rstrip c s' with
      | EmptyString => if Ascii.eqb a c then EmptyString else String a EmptyString
      | r => String a r
      end
  end.

(** [s.count(c)] for a one-character [c]. *)
Fixpoint count (c : ascii) (s : string) : nat :=
  match s with
  | EmptyString => 0
  | String a s' => (if Ascii.eqb a c then 1 else 0) + count c s'
  end.

(** [s * n] *)
Fixpoint repeat_str (s : string) (n : nat) : string :=
  match n with
  | O => EmptyString
  | S n' => s +:+ repeat_str s n'
  end.

(** [sep.join(l)] *)
Definition join (sep : string) (l : list string) : string := String.concat sep l.

(** [s.replace(old, new)]: every non-overlapping occurrence, left to right.
    [skip] counts the characters of a matched occurrence still to pass. *)
Fixpoint replace_from (old new : string) (skip : nat) (s : string) : string :=
  match s with
  | EmptyString => EmptyString
  | String a s' =>
      match skip with
      | S k => replace_from old new k s'
      | O =>
          if String.prefix old s
          then new +:+ replace_from old new (String.length old - 1) s'
          else String a (replace_from old new 0 s')
      end
  end.

Definition replace (s old new : string) : string :=
  match old with
  | EmptyString =>
      (* Python inserts [new] before every character and at the end *)
      (fix go (s : string) : string :=
         match s with
         | EmptyString => new
         | String a s' => new +:+ String a (go s')
         end) s
  | _ => replace_from old new 0 s
  end.

(** [s.split(c)] for a one-character [c]. *)
Fixpoint split (c : ascii) (s : string) : list string :=
  match s with
  | EmptyString => [EmptyString]
  | String a s' =>
      if Ascii.eqb a c then EmptyString :: split c s'
      else
        match split c s' with
        | h :: t => String a h :: t
        | [] => [String a EmptyString]
        end
  end.

(** [s or d] on strings: the empty string is falsy. *)
Definition or_else (s d : string) : string :=
  match s with EmptyString => d | _ => s end.

Definition truthy (s : string) : bool :=
  match s with EmptyString => false | _ => true end.

End PyStr.

(** ** [posixpath] *)

Module PosixPath.
Import PyStr.

(** [os.path.basename(p)]: [i = p.rfind('/') + 1; return p[i:]]. *)
Definition basename (p : string) : string :=
  let i := (rfind "/" p + 1)%Z in
  slice_from i p.

(** The loop of [genericpath._splitext] that skips the leading dots of the
    file name: [true] as soon as a character other than the dot is met
    before [dotIndex]. *)
Fixpoint splitext_scan (p : string) (filenameIndex : Z) (steps : nat) : bool :=
  match steps with
  | O => false
  | S k =>
      if negb (String.eqb (slice filenameIndex (filenameIndex + 1) p) ".")
      then true
      else splitext_scan p (filenameIndex + 1) k
  end.

(** [os.path.splitext(p)] *)
Definition splitext (p : string) : string * string :=
  let sepIndex := rfind "/" p in
  let dotIndex := rfind "." p in
  if (sepIndex <? dotIndex)%Z then
    let filenameIndex := (sepIndex + 1)%Z in
    if splitext_scan p filenameIndex (Z.to_nat (dotIndex - filenameIndex))
    then (slice_to dotIndex p, slice_from dotIndex p)
    else (p, EmptyString)
  else (p, EmptyString).

(** [os.path.join(a, b)] *)
Definition join (a b : string) : string :=
  if startswith b "/" then b
  else if negb (truthy a) || String.eqb (slice_from (Z.of_nat (String.length a) - 1) a) "/"
       then a +:+ b
       else a +:+ "/" +:+ b.

End PosixPath.

(** ** Values, exceptions and results *)

(** The values of an argument mapping.  The catalog declares string and
    boolean parameters only, and these are the two kinds modelled. *)
Inductive value :=
| VStr (s : string)
| VBool (b : bool).

Global Instance value_eq_dec : EqDecision value.
Proof. solve_decision. Defined.

(** [str(v)], as an f-string formats it. *)
Definition py_str (v : value) : string :=
  match v with
  | VStr s => s
  | VBool true => "True"
  | VBool false => "False"
  end.

(** Truth value of [v] in a condition. *)
Definition py_truthy (v : value) : bool :=
  match v with
  | VStr s => PyStr.truthy s
  | VBool b => b
  end.

(** The exception classes the server tells apart; all of them derive from
    [Exception]. *)
Inductive exn_class :=
| KeyError
| ValueError
| TypeError
| FileNotFoundError
| TimeoutExpired
| OSError
| UnicodeDecodeError
| OtherException.

Global Instance exn_class_eq_dec : EqDecision exn_class.
Proof. solve_decision. Defined.

(** An exception with its class and [str(e)]. *)
Record exn := Exn { exn_cls : exn_class; exn_str : string }.

Inductive res (A : Type) :=
| Ok (a : A)
| Raise (e : exn).
Global Arguments Ok {A} a.
Global Arguments Raise {A} e.

(** [subprocess.CompletedProcess] with captured text output. *)
Record CompletedProcess := {
  returncode : Z;
  stdout : string;
  stderr : string
}.

(** [mcp.types.TextContent] *)
Record TextContent := { type : string; text : string }.

(** ** The operating system *)

Inductive file_kind := RegularFile | Directory | SpecialFile.

(** A directory as [os.walk] sees it: sub-directories by name, and the names
    of the other entries. *)
#[warnings="-register-all"]
Inductive dirtree :=
| DirTree (dirs : list (string * dirtree)) (files : list string).

(** What the world outside the process answers.  The oracles are independent
    of each other: a file that [os_stat] reports may still fail to open. *)
Record OS := {
  (** [os.stat] following links: [None] when nothing is there; a boolean is
      taken by Python for a file descriptor *)
  os_stat : value -> option file_kind;
  (** [os.access(p, os.X_OK)] *)
  os_access_X_OK : string -> bool;
  (** [pwd.getpwuid(os.getuid()).pw_dir], [None] for a missing entry *)
  os_getpwuid_dir : option string;
  (** [pwd.getpwnam(name).pw_dir] *)
  os_getpwnam_dir : string -> option string;
  (** [shutil.which(cmd)] when the process environment holds the given
      [PATH] ([None]: unset) *)
  os_which : string -> option string -> option string;
  (** [open(p, 'r', encoding='utf-8')] followed by [read()] *)
  os_read : value -> res string;
  (** [os.makedirs(p, exist_ok=True)] *)
  os_makedirs : string -> option exn;
  (** [open(p, 'w', encoding='utf-8')] followed by [write(content)] *)
  os_write : string -> string -> option exn;
  (** [glob.glob(pattern, recursive=True)] *)
  os_glob : string -> list string;
  (** the directory tree below a path, [None] when it cannot be listed *)
  os_tree : string -> option dirtree;
  (** [subprocess.run(cmd, capture_output=True, text=True, env=env, cwd=cwd,
      timeout=timeout, check=False)] *)
  os_run : list value -> gmap string string -> string -> Z -> res CompletedProcess
}.

(** What a call leaves behind, oldest first.  [EvHandler] and [EvInvoke] mark
    the entry into a handler and into [run_gemini_command]. *)
Inductive event :=
| EvHandler (name : string)
| EvInvoke (args : list value) (timeout : Z)
| EvSpawn (cmd : list value) (env : gmap string string) (cwd : string)
          (timeout : Z) (outcome : res CompletedProcess)
| EvMakedirs (path : string)
| EvWrite (path content : string).

(** The state of the process: [os.environ] and the history of its effects. *)
Record World := {
  environ : gmap string string;
  events : list event
}.

(** ** Computations that may raise *)

Definition M (A : Type) : Type := World -> res A * World.

Global Instance M_ret : MRet M := fun A a w => (Ok a, w).
Global Instance M_bind : MBind M := fun A B f m w =>
  match m w with
  | (Ok a, w') => f a w'
  | (Raise e, w') => (Raise e, w')
  end.

Definition raise {A} (e : exn) : M A := fun w => (Raise e, w).

(** [try: body  except Exception as e: handler e] *)
Definition try_except {A} (body : M A) (handler : exn -> M A) : M A := fun w =>
  match body w with
  | (Ok a, w') => (Ok a, w')
  | (Raise e, w') => handler e w'
  end.

(** [try: body  finally: final] *)
Definition try_finally {A} (body : M A) (final : M unit) : M A := fun w =>
  match body w with
  | (r, w') =>
      match final w' with
      | (Ok _, w'') => (r, w'')
      | (Raise e, w'') => (Raise e, w'')
      end
  end.

Definition log (e : event) : M unit := fun w =>
  (Ok tt, {| environ := environ w; events := events w ++ [e] |}).

(** [for x in l: acc = step acc x] *)
Fixpoint for_each {A B} (step : B -> A -> M B) (l : list A) (acc : B) : M B :=
  match l with
  | [] => mret acc
  | x :: l' => acc' ← step acc x; for_each step l' acc'
  end.

(** [d[k]] on a dictionary of strings *)
Definition getitem (d : gmap string string) (k : string) : M string :=
  match d !! k with
  | Some v => mret v
  | None => raise (Exn KeyError ("'" +:+ k +:+ "'"))
  end.

(** [args[k]] on an argument mapping *)
Definition arg (args : gmap string value) (k : string) : M value :=
  match args !! k with
  | Some v => mret v
  | None => raise (Exn KeyError ("'" +:+ k +:+ "'"))
  end.

(** [args.get(k, d)] *)
Definition arg_get (args : gmap string value) (k : string) (d : value) : value :=
  default d (args !! k).

(** [os.path.expanduser(path)] under a given environment. *)
Definition expanduser_in (os : OS) (env : gmap string string) (path : string) : string :=
  if negb (PyStr.startswith path "~") then path
  else
    let i := PyStr.find_from "/" 1 path in
    let i := if (i <? 0)%Z then Z.of_nat (String.length path) else i in
    let userhome :=
      if (i =? 1)%Z then
        match env !! "HOME" with
        | Some h => Some h
        | None => os_getpwuid_dir os
        end
      else os_getpwnam_dir os (PyStr.slice 1 i path) in
    match userhome with
    | None => path
    | Some userhome =>
        let userhome := PyStr.rstrip "/" userhome in
        PyStr.or_else (userhome +:+ PyStr.slice_from i path) "/"
    end.

Section Server.

Context (os : OS).

(** *** Library calls *)

Definition os_environ_copy : M (gmap string string) := fun w => (Ok (environ w), w).

(** [os.environ.get(k, d)] *)
Definition os_environ_get (k d : string) : M string := fun w =>
  (Ok (default d (environ w !! k)), w).

(** [os.environ[k] = v] *)
Definition os_environ_set (k v : string) : M unit := fun w =>
  (Ok tt, {| environ := <[k := v]> (environ w); events := events w |}).

Definition expanduser (path : string) : M string := fun w =>
  (Ok (expanduser_in os (environ w) path), w).

Definition os_path_exists (p : value) : M bool :=
  mret (match os_stat os p with Some _ => true | None => false end).

Definition os_path_isfile (p : value) : M bool :=
  mret (match os_stat os p with Some RegularFile => true | _ => false end).

Definition os_path_isdir (p : value) : M bool :=
  mret (match os_stat os p with Some Directory => true | _ => false end).

Definition os_access (p : string) : M bool := mret (os_access_X_OK os p).

Definition shutil_which (cmd : string) : M (option string) := fun w =>
  (Ok (os_which os cmd (environ w !! "PATH")), w).

Definition open_read (p : value) : M string := fun w => (os_read os p, w).

Definition subprocess_run (cmd : list value) (env : gmap string string)
    (cwd : string) (timeout : Z) : M CompletedProcess := fun w =>
  let outcome := os_run os cmd env cwd timeout in
  (outcome, {| environ := environ w;
               events := events w ++ [EvSpawn cmd env cwd timeout outcome] |}).

(** *** [run_gemini_command] *)

(** One turn of the loop over [additional_paths]. *)
Definition add_path (env : gmap string string) (path : string) : M (gmap string string) :=
  cur ← getitem env "PATH";
  if negb (PyStr.contains path cur) then
    cur ← getitem env "PATH";
    mret (<["PATH" := path +:+ ":" +:+ cur]> env)
  else mret env.

(** Lines 46-66: the environment of the child. *)
Definition build_env : M (gmap string string) :=
  env ← os_environ_copy;
  let npm_bin_path := "/home/user/.npm-global/bin" in
  let current_path := default "" (env !! "PATH") in
  let env :=
    if negb (PyStr.contains npm_bin_path current_path)
    then <["PATH" := npm_bin_path +:+ ":" +:+ current_path]> env
    else env in
  home_npm ← expanduser "~/.npm-global/bin";
  let additional_paths :=
    ["/usr/local/bin"; "/usr/bin"; "/bin"; home_npm; "/home/user/.local/bin"] in
  for_each add_path additional_paths env.

(** [location and os.path.exists(location) and os.access(location, os.X_OK)] *)
Definition location_ok (location : option string) : M bool :=
  match location with
  | None => mret false
  | Some l =>
      if negb (PyStr.truthy l) then mret false
      else
        ex ← os_path_exists (VStr l);
        if negb ex then mret false else os_access l
  end.

(** The loop over [gemini_locations], left at the first hit. *)
Fixpoint first_location (locations : list (option string)) : M (option string) :=
  match locations with
  | [] => mret None
  | location :: rest =>
      ok ← location_ok location;
      if (ok : bool) then mret location else first_location rest
  end.

(** [not gemini_path] *)
Definition not_path (gemini_path : option string) : bool :=
  match gemini_path with
  | Some p => negb (PyStr.truthy p)
  | None => true
  end.

Definition not_found_message : string :=
  "Gemini CLI executable not found. Please ensure it's installed via npm.".

(** Lines 68-96: where the executable is. *)
Definition resolve_gemini (env : gmap string string) : M string :=
  home_gemini ← expanduser "~/.npm-global/bin/gemini";
  found ← shutil_which "gemini";
  let gemini_locations :=
    [Some "/home/user/.npm-global/bin/gemini";
     Some "/usr/local/bin/gemini";
     Some "/usr/bin/gemini";
     Some home_gemini;
     found] in
  gemini_path ← first_location gemini_locations;
  gemini_path ←
    (if not_path gemini_path then
       old_path ← os_environ_get "PATH" "";
       new_path ← getitem env "PATH";
       os_environ_set "PATH" new_path;;
       try_finally (shutil_which "gemini") (os_environ_set "PATH" old_path)
     else mret gemini_path);
  match gemini_path with
  | Some p => if PyStr.truthy p then mret p else raise (Exn FileNotFoundError not_found_message)
  | None => raise (Exn FileNotFoundError not_found_message)
  end.

Definition run_gemini_command (args : list value) (working_dir : option string)
    (timeout : Z) : M CompletedProcess :=
  log (EvInvoke args timeout);;
  env ← build_env;
  gemini_path ← resolve_gemini env;
  working_dir ←
    match working_dir with
    | Some d => mret d
    | None =>
        home ← expanduser "~";
        ex ← os_path_exists (VStr home);
        mret (if negb ex then "/home/user" else home)
    end;
  let full_cmd := VStr gemini_path :: args in
  try_except
    (result ← subprocess_run full_cmd env working_dir timeout;
     mret result)
    (fun e => raise e).

(** *** More library calls, on argument values *)

Definition not_a_path (v : value) : exn :=
  Exn TypeError "expected str, bytes or os.PathLike object, not bool".

(** [os.path.basename(v)] *)
Definition path_basename (v : value) : M string :=
  match v with
  | VStr p => mret (PosixPath.basename p)
  | VBool _ => raise (not_a_path v)
  end.

(** [os.path.splitext(v)] *)
Definition path_splitext (v : value) : M (string * string) :=
  match v with
  | VStr p => mret (PosixPath.splitext p)
  | VBool _ => raise (not_a_path v)
  end.

(** [os.path.join(v, pattern)] *)
Definition path_join (v : value) (pattern : string) : M string :=
  match v with
  | VStr p => mret (PosixPath.join p pattern)
  | VBool _ => raise (not_a_path v)
  end.

Definition glob_glob (pattern : string) : M (list string) := mret (os_glob os pattern).

Definition os_makedirs_exist_ok (path : string) : M unit :=
  match os_makedirs os path with
  | Some e => raise e
  | None => log (EvMakedirs path)
  end.

Definition open_write (path content : string) : M unit :=
  match os_write os path content with
  | Some e => raise e
  | None => log (EvWrite path content)
  end.

(** [os.walk(top)] with the caller's pruning of [dirs]: a directory whose
    name [keep] rejects is not descended into. *)
Fixpoint walk (keep : string -> bool) (root : string) (t : dirtree)
    : list (string * list string) :=
  match t with
  | DirTree dirs files =>
      (root, files) ::
      flat_map (fun d => let '(name, sub) := d in
                         if keep name then walk keep (PosixPath.join root name) sub
                         else []) dirs
  end.

Definition os_walk (keep : string -> bool) (top : value) : M (list (string * list string)) :=
  match top with
  | VStr p =>
      mret (match os_tree os p with
            | Some t => walk keep p t
            | None => []
            end)
  | VBool _ => raise (not_a_path top)
  end.

Definition text_content (s : string) : TextContent := {| type := "text"; text := s |}.

(** *** [review_code] *)

Definition prompt_security (file_path code_content : string) : string :=
  "Perform a comprehensive security review of this code. Look for:
- Security vulnerabilities and potential exploits
- Input validation issues
- Authentication and authorization flaws
- Data exposure risks
- Injection attack vectors
- Cryptographic issues
- Access control problems

File: " +:+ file_path +:+ "

Code:
```
" +:+ code_content +:+ "
```

Provide specific security recommendations and fixes.".

Definition prompt_performance (file_path code_content : string) : string :=
  "Analyze this code for performance issues and optimization opportunities:
- Algorithmic complexity analysis
- Memory usage optimization
- I/O operation efficiency
- Database query optimization
- Caching opportunities
- Resource management
- Scalability concerns

File: " +:+ file_path +:+ "

Code:
```
" +:+ code_content +:+ "
```

Provide specific performance improvement recommendations.".

Definition prompt_style (file_path code_content : string) : string :=
  "Review this code for style, readability, and best practices:
- Code organization and structure
- Naming conventions
- Documentation and comments
- Code duplication
- Design patterns usage
- Language-specific best practices
- Maintainability aspects

File: " +:+ file_path +:+ "

Code:
```
" +:+ code_content +:+ "
```

Provide specific style and best practice recommendations.".

Definition prompt_general (file_path code_content : string) : string :=
  "Perform a comprehensive code review covering all aspects:
- Code quality and organization
- Security vulnerabilities
- Performance considerations
- Style and best practices
- Maintainability
- Testing considerations
- Documentation quality

File: " +:+ file_path +:+ "

Code:
```
" +:+ code_content +:+ "
```

Provide a thorough analysis with specific recommendations for improvement.".

(** [prompts.get(review_type, prompts["general"])] *)
Definition prompts_get (review_type : value) (file_path code_content : string) : string :=
  let prompts :=
    [(VStr "security", prompt_security file_path code_content);
     (VStr "performance", prompt_performance file_path code_content);
     (VStr "style", prompt_style file_path code_content);
     (VStr "general", prompt_general file_path code_content)] in
  match list_find (fun kv => kv.1 = review_type) prompts with
  | Some (_, kv) => kv.2
  | None => prompt_general file_path code_content
  end.

(** The [try] block of [review_code_handler]. *)
Definition review_code_try (file_path review_type : value) : M (list TextContent) :=
  ex ← os_path_exists file_path;
  if negb ex then
    mret [text_content ("❌ File not found: " +:+ py_str file_path)]
  else
    code_content ← open_read file_path;
    let prompt := prompts_get review_type (py_str file_path) code_content in
    result ← run_gemini_command [VStr "--prompt"; VStr prompt] None 90;
    if (returncode result =? 0)%Z then
      mret [text_content ("✅ Code review completed!

File: " +:+ py_str file_path +:+ "
Review Type: " +:+ py_str review_type +:+ "

Gemini Analysis:
" +:+ stdout result)]
    else
      mret [text_content ("❌ Code review failed: " +:+ PyStr.or_else (stderr result) "Unknown error")].

Definition review_code_handler (args : gmap string value) : M (list TextContent) :=
  log (EvHandler "review_code");;
  file_path ← arg args "file_path";
  let review_type := arg_get args "review_type" (VStr "general") in
  try_except
    (review_code_try file_path review_type)
    (fun e => mret [text_content ("❌ Error during code review: " +:+ exn_str e)]).

(** *** [generate_tests] *)

Definition generate_tests_prompt
    (source_file test_framework coverage_level source_code : string) : string :=
  "Generate " +:+ coverage_level +:+ " test cases for this code using " +:+ test_framework +:+ ".

Requirements:
- Create thorough unit tests
- Include edge cases and boundary conditions
- Test error scenarios and exception handling
- Include setup and teardown if needed
- Add descriptive test names and comments
- Ensure good test coverage
- Include integration tests where appropriate

Source File: " +:+ source_file +:+ "
Testing Framework: " +:+ test_framework +:+ "
Coverage Level: " +:+ coverage_level +:+ "

Source Code:
```
" +:+ source_code +:+ "
```

Generate complete, runnable test code with proper structure and organization.".

(** Lines 381-388: the name of the test file. *)
Definition test_file_name_of (base_name extension : string) : string :=
  if bool_decide (extension ∈ [".js"; ".ts"; ".jsx"; ".tsx"]) then
    base_name +:+ ".test" +:+ extension
  else if bool_decide (extension = ".py") then
    "test_" +:+ base_name +:+ ".py"
  else if bool_decide (extension ∈ [".java"]) then
    base_name +:+ "Test.java"
  else
    base_name +:+ "_test" +:+ extension.

(** The [try] block of [generate_tests_handler]. *)
Definition generate_tests_try (source_file test_framework coverage_level : value) : M (list TextContent) :=
  ex ← os_path_exists source_file;
  if negb ex then
    mret [text_content ("❌ Source file not found: " +:+ py_str source_file)]
  else
    source_code ← open_read source_file;
    let prompt :=
      generate_tests_prompt (py_str source_file) (py_str test_framework)
                            (py_str coverage_level) source_code in
    result ← run_gemini_command [VStr "--prompt"; VStr prompt] None 120;
    if (returncode result =? 0)%Z then
      base ← path_basename source_file;
      base_split ← path_splitext (VStr base);
      let base_name := base_split.1 in
      source_split ← path_splitext source_file;
      let extension := source_split.2 in
      let test_file_name := test_file_name_of base_name extension in
      let test_file_path := "./tests/" +:+ test_file_name in
      os_makedirs_exist_ok "./tests";;
      try_except
        (open_write test_file_path (stdout result);;
         mret [text_content ("✅ Test cases generated and saved!

Source: " +:+ py_str source_file +:+ "
Test File: " +:+ test_file_path +:+ "
Framework: " +:+ py_str test_framework +:+ "
Coverage: " +:+ py_str coverage_level +:+ "

Generated Tests:
" +:+ stdout result)])
        (fun e => mret [text_content ("✅ Test cases generated!

Source: " +:+ py_str source_file +:+ "
Framework: " +:+ py_str test_framework +:+ "
Coverage: " +:+ py_str coverage_level +:+ "

Note: Could not save to file (" +:+ exn_str e +:+ "), but here are the tests:
" +:+ stdout result)])
    else
      mret [text_content ("❌ Test generation failed: " +:+ PyStr.or_else (stderr result) "Unknown error")].

Definition generate_tests_handler (args : gmap string value) : M (list TextContent) :=
  log (EvHandler "generate_tests");;
  source_file ← arg args "source_file";
  let test_framework := arg_get args "test_framework" (VStr "jest") in
  let coverage_level := arg_get args "coverage_level" (VStr "comprehensive") in
  try_except
    (generate_tests_try source_file test_framework coverage_level)
    (fun e => mret [text_content ("❌ Error generating tests: " +:+ exn_str e)]).

(** *** [security_audit] *)

Definition security_audit_prompt (file_path content : string) : string :=
  "Perform a comprehensive security audit of this code file.

Focus on identifying:
- SQL injection vulnerabilities
- Cross-site scripting (XSS) issues
- Authentication bypass possibilities
- Authorization flaws
- Input validation problems
- Data exposure risks
- Cryptographic weaknesses
- File system security issues
- Network security concerns
- Dependency vulnerabilities

File: " +:+ file_path +:+ "

Code:
```
" +:+ content +:+ "
```

Provide specific security findings with severity levels and remediation recommendations.".

Definition audit_patterns : list string :=
  ["**/*.js"; "**/*.py"; "**/*.ts"; "**/*.jsx"; "**/*.tsx"; "**/*.java";
   "**/*.php"; "**/*.rb"; "**/*.go"].

(** The body of the loop over [files_to_audit]. *)
Definition audit_file (audit_results : list string) (file_path : value) : M (list string) :=
  try_except
    (content ← open_read file_path;
     let prompt := security_audit_prompt (py_str file_path) content in
     result ← run_gemini_command [VStr "--prompt"; VStr prompt] None 60;
     if (returncode result =? 0)%Z then
       mret (audit_results ++
             ["📁 File: " +:+ py_str file_path +:+ "
" +:+ stdout result +:+ "
" +:+ PyStr.repeat_str "=" 80])
     else
       mret (audit_results ++
             ["❌ Failed to audit " +:+ py_str file_path +:+ ": " +:+ PyStr.or_else (stderr result) "Unknown error"]))
    (fun e => mret (audit_results ++
             ["❌ Error reading " +:+ py_str file_path +:+ ": " +:+ exn_str e])).

(** The text of the report, line 477. *)
Definition security_audit_report (target_path audit_level : value)
    (audit_results : list string) : string :=
  "✅ Security audit completed!

Target: " +:+ py_str target_path +:+ "
Audited Files: " +:+ pretty (length audit_results) +:+ "
Audit Level: " +:+ py_str audit_level +:+ "

" +:+
  PyStr.join (PyStr.nl +:+ PyStr.nl) audit_results.

(** The [try] block of [security_audit_handler]. *)
Definition security_audit_try (target_path audit_level : value) : M (list TextContent) :=
  is_file ← os_path_isfile target_path;
  found ←
    (if (is_file : bool) then mret (Some [target_path])
     else
       is_dir ← os_path_isdir target_path;
       if (is_dir : bool) then
         files ← for_each
           (fun files_to_audit pattern =>
              full ← path_join target_path pattern;
              matches ← glob_glob full;
              mret (files_to_audit ++ (VStr <$> matches)))
           audit_patterns [];
         mret (Some files)
       else mret None);
  match found with
  | None => mret [text_content ("❌ Path not found: " +:+ py_str target_path)]
  | Some files_to_audit =>
      let max_files := if bool_decide (audit_level = VStr "deep") then 20 else 10 in
      let files_to_audit := take max_files files_to_audit in
      audit_results ← for_each audit_file files_to_audit [];
      mret [text_content (security_audit_report target_path audit_level audit_results)]
  end.

Definition security_audit_handler (args : gmap string value) : M (list TextContent) :=
  log (EvHandler "security_audit");;
  target_path ← arg args "target_path";
  let audit_level := arg_get args "audit_level" (VStr "quick") in
  try_except
    (security_audit_try target_path audit_level)
    (fun e => mret [text_content ("❌ Security audit error: " +:+ exn_str e)]).

(** *** [performance_analysis] *)

Definition performance_analysis_prompt (file_path language code_content : string) : string :=
  "Analyze this " +:+ language +:+ " code for performance bottlenecks and optimization opportunities.

Performance Analysis Areas:
- Algorithmic complexity (Big O analysis)
- Memory usage and optimization
- I/O operations efficiency
- Database query optimization
- Caching opportunities
- Resource management
- Concurrent/parallel processing potential
- Language-specific optimizations
- Scalability considerations
- Profiling recommendations

File: " +:+ file_path +:+ "
Language: " +:+ language +:+ "

Code:
```
" +:+ code_content +:+ "
```

Provide specific performance improvement recommendations with before/after examples where applicable.".

(** The [try] block of [performance_analysis_handler]. *)
Definition performance_analysis_try (file_path language : value) : M (list TextContent) :=
  ex ← os_path_exists file_path;
  if negb ex then
    mret [text_content ("❌ File not found: " +:+ py_str file_path)]
  else
    code_content ← open_read file_path;
    let prompt :=
      performance_analysis_prompt (py_str file_path) (py_str language) code_content in
    result ← run_gemini_command [VStr "--prompt"; VStr prompt] None 90;
    if (returncode result =? 0)%Z then
      mret [text_content ("✅ Performance analysis completed!

File: " +:+ py_str file_path +:+ "
Language: " +:+ py_str language +:+ "

Gemini Performance Analysis:
" +:+ stdout result)]
    else
      mret [text_content ("❌ Performance analysis failed: " +:+ PyStr.or_else (stderr result) "Unknown error")].

Definition performance_analysis_handler (args : gmap string value) : M (list TextContent) :=
  log (EvHandler "performance_analysis");;
  file_path ← arg args "file_path";
  language ← arg args "language";
  try_except
    (performance_analysis_try file_path language)
    (fun e => mret [text_content ("❌ Performance analysis error: " +:+ exn_str e)]).

(** *** [code_quality_report] *)

Definition code_quality_report_prompt
    (project_path include_metrics structure_summary config_content : string) : string :=
  "Analyze this project and provide a comprehensive code quality report.

Project Path: " +:+ project_path +:+ "
Include Metrics: " +:+ include_metrics +:+ "

Project Structure:
" +:+ structure_summary +:+ "

Key Configuration Files:
" +:+ config_content +:+ "

Please provide a comprehensive analysis covering:

1. **Architecture Assessment**
   - Project structure and organization
   - Design patterns usage
   - Separation of concerns
   - Modularity and maintainability

2. **Code Quality Metrics** (if include_metrics is True)
   - Estimated complexity
   - Maintainability index
   - Technical debt indicators
   - Documentation coverage

3. **Best Practices Compliance**
   - Language-specific conventions
   - Security practices
   - Performance considerations
   - Testing strategy

4. **Improvement Recommendations**
   - Priority issues to address
   - Refactoring opportunities
   - Infrastructure improvements
   - Development workflow enhancements

5. **Risk Assessment**
   - Security vulnerabilities
   - Performance bottlenecks
   - Maintenance challenges
   - Scalability concerns

Provide actionable recommendations with priority levels.".

Definition skipped_dirs : list string :=
  [".git"; "node_modules"; "__pycache__"; ".venv"; "venv"; "build"; "dist"].

(** The loop over [os.walk(project_path)], with its [break]. *)
Fixpoint structure_loop (project_path : string) (walked : list (string * list string))
    (structure_info : list string) (file_count : nat) : list string :=
  match walked with
  | [] => structure_info
  | (root, files) :: rest =>
      let level := PyStr.count "/" (PyStr.replace root project_path "") in
      let indent := PyStr.repeat_str "  " level in
      let structure_info := structure_info ++ [indent +:+ PosixPath.basename root +:+ "/"] in
      let subindent := PyStr.repeat_str "  " (level + 1) in
      let shown := take 10 files in
      let structure_info := structure_info ++ ((fun file => subindent +:+ file) <$> shown) in
      let file_count := file_count + length shown in
      if 100 <? file_count then
        structure_info ++ [subindent +:+ "... (truncated)"]
      else structure_loop project_path rest structure_info file_count
  end.

Definition key_file_patterns : list string :=
  ["**/package.json"; "**/requirements.txt"; "**/pom.xml"; "**/Cargo.toml";
   "**/go.mod"; "**/*.md"].

(** The body of the loop over [key_files[:5]]; a file that cannot be read
    is passed over. *)
Definition read_key_file (config_content : string) (file_path : string) : M string :=
  try_except
    (whole ← open_read (VStr file_path);
     let content := PyStr.str_take 2000 whole in
     mret (config_content +:+ "

" +:+ file_path +:+ ":
" +:+ content))
    (fun _ => mret config_content).

(** The [try] block of [code_quality_report_handler]. *)
Definition code_quality_report_try (project_path include_metrics : value) : M (list TextContent) :=
  ex ← os_path_exists project_path;
  if negb ex then
    mret [text_content ("❌ Project path not found: " +:+ py_str project_path)]
  else
    walked ← os_walk (fun d => bool_decide (d ∉ skipped_dirs)) project_path;
    let structure_info := structure_loop (py_str project_path) walked [] 0 in
    let structure_summary := PyStr.join PyStr.nl (take 100 structure_info) in
    key_files ← for_each
      (fun key_files pattern =>
         full ← path_join project_path pattern;
         matches ← glob_glob full;
         mret (key_files ++ matches))
      key_file_patterns [];
    config_content ← for_each read_key_file (take 5 key_files) "";
    let prompt :=
      code_quality_report_prompt (py_str project_path) (py_str include_metrics)
                                 structure_summary config_content in
    result ← run_gemini_command [VStr "--prompt"; VStr prompt] None 150;
    if (returncode result =? 0)%Z then
      mret [text_content ("✅ Code quality report generated!

Project: " +:+ py_str project_path +:+ "
Metrics Included: " +:+ py_str include_metrics +:+ "

Gemini Quality Report:
" +:+ stdout result)]
    else
      mret [text_content ("❌ Quality report generation failed: " +:+ PyStr.or_else (stderr result) "Unknown error")].

Definition code_quality_report_handler (args : gmap string value) : M (list TextContent) :=
  log (EvHandler "code_quality_report");;
  project_path ← arg args "project_path";
  let include_metrics := arg_get args "include_metrics" (VBool true) in
  try_except
    (code_quality_report_try project_path include_metrics)
    (fun e => mret [text_content ("❌ Quality report error: " +:+ exn_str e)]).

(** *** [ask_gemini] *)

(** The [try] block of [ask_gemini_handler]. *)
Definition ask_gemini_try (prompt include_all_files : value) : M (list TextContent) :=
  let cmd_args := [VStr "--prompt"; prompt] in
  let cmd_args :=
    if py_truthy include_all_files then cmd_args ++ [VStr "--all_files"] else cmd_args in
  result ← run_gemini_command cmd_args None 120;
  if (returncode result =? 0)%Z then
    mret [text_content ("✅ Gemini Response:

" +:+ stdout result)]
  else
    mret [text_content ("❌ Gemini Error:
" +:+ PyStr.or_else (stderr result) "Unknown error occurred")].

Definition ask_gemini_handler (args : gmap string value) : M (list TextContent) :=
  log (EvHandler "ask_gemini");;
  prompt ← arg args "prompt";
  let include_all_files := arg_get args "include_all_files" (VBool false) in
  try_except
    (ask_gemini_try prompt include_all_files)
    (fun e =>
       match exn_cls e with
       | TimeoutExpired => mret [text_content "⏰ Gemini request timed out"]
       | FileNotFoundError => mret [text_content ("❌ Gemini CLI not found: " +:+ exn_str e)]
       | _ => mret [text_content ("❌ Error: " +:+ exn_str e)]
       end).

(** *** [call_tool] *)

Definition call_tool (name : string) (arguments : gmap string value) : M (list TextContent) :=
  if bool_decide (name = "review_code") then review_code_handler arguments
  else if bool_decide (name = "generate_tests") then generate_tests_handler arguments
  else if bool_decide (name = "security_audit") then security_audit_handler arguments
  else if bool_decide (name = "performance_analysis") then performance_analysis_handler arguments
  else if bool_decide (name = "code_quality_report") then code_quality_report_handler arguments
  else if bool_decide (name = "ask_gemini") then ask_gemini_handler arguments
  else raise (Exn ValueError ("Unknown tool: " +:+ name)).

End Server.


(** ** The catalog of [list_tools] *)

(** The [inputSchema] of a tool: a JSON object schema. *)
Record InputSchema := {
  schema_type : string;
  properties : list (string * gmap string value);
  required : list string
}.

(** [mcp.types.Tool] *)
Record Tool := {
  name : string;
  description : string;
  inputSchema : InputSchema
}.

Definition string_property (d : string) : gmap string value :=
  {[ "type" := VStr "string"; "description" := VStr d ]}.

Definition boolean_property (d : string) : gmap string value :=
  {[ "type" := VStr "boolean"; "description" := VStr d ]}.

Definition list_tools : list Tool :=
  [ {| name := "review_code";
       description := "Review code quality using Gemini CLI";
       inputSchema := {|
         schema_type := "object";
         properties :=
           [("file_path", string_property "Path to code file to review");
            ("review_type",
             string_property "Type of review (security, performance, style, etc.)")];
         required := ["file_path"] |} |};
    {| name := "generate_tests";
       description := "Generate test cases for code using Gemini";
       inputSchema := {|
         schema_type := "object";
         properties :=
           [("source_file", string_property "Source code file to test");
            ("test_framework", string_property "Testing framework to use");
            ("coverage_level",
             string_property "Test coverage level (basic, comprehensive)")];
         required := ["source_file"] |} |};
    {| name := "security_audit";
       description := "Perform security audit on code";
       inputSchema := {|
         schema_type := "object";
         properties :=
           [("target_path", string_property "File or directory path to audit");
            ("audit_level", string_property "Audit depth (quick, deep)")];
         required := ["target_path"] |} |};
    {| name := "performance_analysis";
       description := "Analyze code performance and suggest optimizations";
       inputSchema := {|
         schema_type := "object";
         properties :=
           [("file_path", string_property "Code file to analyze");
            ("language", string_property "Programming language")];
         required := ["file_path"; "language"] |} |};
    {| name := "code_quality_report";
       description := "Generate comprehensive code quality report";
       inputSchema := {|
         schema_type := "object";
         properties :=
           [("project_path", string_property "Project directory path");
            ("include_metrics", boolean_property "Include quality metrics")];
         required := ["project_path"] |} |};
    {| name := "ask_gemini";
       description := "Ask Gemini directly for QA assistance";
       inputSchema := {|
         schema_type := "object";
         properties :=
           [("prompt", string_property "Prompt to send to Gemini");
            ("include_all_files",
             <["default" := VBool false]>
               (boolean_property "Include all files in context"))];
         required := ["prompt"] |} |} ].

Definition declared_names : list string := name <$> list_tools.

(** The keys that the catalog declares required for a tool. *)
Definition required_keys (tool : string) : list string :=
  flat_map (fun t => if bool_decide (name t = tool) then required (inputSchema t) else [])
           list_tools.

(** ** The invoker as functions of the environment *)

(** One guarded prepend: [if path not in cur: cur = path + ':' + cur]. *)
Definition prepend_unless_in (path cur : string) : string :=
  if PyStr.contains path cur then cur else path +:+ ":" +:+ cur.

(** The directories of [additional_paths] under an environment. *)
Definition additional_paths_in (os : OS) (env : gmap string string) : list string :=
  ["/usr/local/bin"; "/usr/bin"; "/bin";
   expanduser_in os env "~/.npm-global/bin"; "/home/user/.local/bin"].

(** The search path that [build_env] hands to the child. *)
Definition child_path (os : OS) (env : gmap string string) : string :=
  foldl (fun cur path => prepend_unless_in path cur)
        (prepend_unless_in "/home/user/.npm-global/bin" (default "" (env !! "PATH")))
        (additional_paths_in os env).

Definition child_env (os : OS) (env : gmap string string) : gmap string string :=
  <["PATH" := child_path os env]> env.

(** The list [gemini_locations] under an environment. *)
Definition gemini_locations_in (os : OS) (env : gmap string string) : list (option string) :=
  [Some "/home/user/.npm-global/bin/gemini";
   Some "/usr/local/bin/gemini";
   Some "/usr/bin/gemini";
   Some (expanduser_in os env "~/.npm-global/bin/gemini");
   os_which os "gemini" (env !! "PATH")].

(** The test of the resolution loop on one candidate. *)
Definition usable (os : OS) (location : option string) : bool :=
  match location with
  | None => false
  | Some l =>
      PyStr.truthy l &&
      match os_stat os (VStr l) with Some _ => true | None => false end &&
      os_access_X_OK os l
  end.

(** The loop over the candidates, as a function. *)
Fixpoint first_usable (os : OS) (locations : list (option string)) : option string :=
  match locations with
  | [] => None
  | location :: rest => if usable os location then location else first_usable os rest
  end.

(** Where the executable is taken from: the first usable candidate in the
    order of the list; failing that, the search-path lookup under the search
    path of the child; failing that, nowhere. *)
Inductive resolved (os : OS) (env : gmap string string) : option string -> Prop :=
| resolved_candidate pre p post :
    gemini_locations_in os env = pre ++ Some p :: post ->
    Forall (fun l => usable os l = false) pre ->
    usable os (Some p) = true ->
    resolved os env (Some p)
| resolved_retry p :
    Forall (fun l => usable os l = false) (gemini_locations_in os env) ->
    os_which os "gemini" (Some (child_path os env)) = Some p ->
    p <> "" ->
    resolved os env (Some p)
| resolved_nowhere :
    Forall (fun l => usable os l = false) (gemini_locations_in os env) ->
    os_which os "gemini" (Some (child_path os env)) = None \/
    os_which os "gemini" (Some (child_path os env)) = Some "" ->
    resolved os env None.

(** The working directory that [run_gemini_command] settles on. *)
Definition working_dir_in (os : OS) (env : gmap string string) (working_dir : option string) : string :=
  match working_dir with
  | Some d => d
  | None =>
      let home := expanduser_in os env "~" in
      match os_stat os (VStr home) with
      | Some _ => home
      | None => "/home/user"
      end
  end.

(** The error of a failed resolution, line 96. *)
Definition not_found : exn := Exn FileNotFoundError not_found_message.

(** The launch of the executable found at [p], from the world [w]. *)
Definition launch (os : OS) (p : string) (args : list value) (env : gmap string string)
    (working_dir : option string) (timeout : Z) (w : World) : res CompletedProcess * World :=
  let cwd := working_dir_in os (environ w) working_dir in
  let outcome := os_run os (VStr p :: args) env cwd timeout in
  (outcome, {| environ := environ w;
               events := events w ++ [EvSpawn (VStr p :: args) env cwd timeout outcome] |}).

(** [os.environ] after the retry of the lookup: [PATH] is put back to what
    [os.environ.get('PATH', '')] returned before. *)
Definition environ_after_retry (env : gmap string string) : gmap string string :=
  <["PATH" := default "" (env !! "PATH")]> env.

(** How many times a history enters [run_gemini_command]. *)
Fixpoint invocations (l : list event) : nat :=
  match l with
  | [] => 0
  | EvInvoke _ _ :: l' => S (invocations l')
  | _ :: l' => invocations l'
  end.

(** The name and the path of the test file for a source file, lines 378-390. *)
Definition test_file_name (source_file : string) : string :=
  test_file_name_of (PosixPath.splitext (PosixPath.basename source_file)).1
                    (PosixPath.splitext source_file).2.

Definition test_file_path (source_file : string) : string :=
  "./tests/" +:+ test_file_name source_file.

(** What a payload owes to the launches of a history: the captured standard
    error of every child that exited with a code other than zero. *)
Definition reports_stderr (new : list event) (t : string) : Prop :=
  forall cmd env cwd timeout cp,
    EvSpawn cmd env cwd timeout (Ok cp) ∈ new ->
    returncode cp <> 0%Z ->
    PyStr.contains (stderr cp) t = true.

(** The files that [security_audit] finds for a target: the target itself
    when it is a regular file, what the patterns match below it when it is a
    directory, and [None] for the not-found branch. *)
Definition audit_targets (os : OS) (target : value) : res (option (list value)) :=
  match os_stat os target with
  | Some RegularFile => Ok (Some [target])
  | Some Directory =>
      match target with
      | VStr p =>
          Ok (Some (VStr <$> flat_map (fun pattern => os_glob os (PosixPath.join p pattern))
                                      audit_patterns))
      | VBool _ => Raise (not_a_path target)
      end
  | _ => Ok None
  end.

(** [max_files], line 433. *)
Definition max_files (audit_level : value) : nat :=
  if bool_decide (audit_level = VStr "deep") then 20 else 10.

(** The [try] block that a call of a tool runs, once the handler has read
    its arguments. *)
Inductive try_block_of (os : OS) (arguments : gmap string value)
    : string -> M (list TextContent) -> Prop :=
| try_review_code file_path :
    arguments !! "file_path" = Some file_path ->
    try_block_of os arguments "review_code"
      (review_code_try os file_path (arg_get arguments "review_type" (VStr "general")))
| try_generate_tests source_file :
    arguments !! "source_file" = Some source_file ->
    try_block_of os arguments "generate_tests"
      (generate_tests_try os source_file
         (arg_get arguments "test_framework" (VStr "jest"))
         (arg_get arguments "coverage_level" (VStr "comprehensive")))
| try_security_audit target_path :
    arguments !! "target_path" = Some target_path ->
    try_block_of os arguments "security_audit"
      (security_audit_try os target_path (arg_get arguments "audit_level" (VStr "quick")))
| try_performance_analysis file_path language :
    arguments !! "file_path" = Some file_path ->
    arguments !! "language" = Some language ->
    try_block_of os arguments "performance_analysis"
      (performance_analysis_try os file_path language)
| try_code_quality_report project_path :
    arguments !! "project_path" = Some project_path ->
    try_block_of os arguments "code_quality_report"
      (code_quality_report_try os project_path
         (arg_get arguments "include_metrics" (VBool true)))
| try_ask_gemini prompt :
    arguments !! "prompt" = Some prompt ->
    try_block_of os arguments "ask_gemini"
      (ask_gemini_try os prompt (arg_get arguments "include_all_files" (VBool false))).

(** What a try block that returned has to have produced: one text payload
    that begins with one of the two glyphs and reports the standard error of
    the children launched since [w0]. *)
Definition well_formed (w0 : World) (payload : list TextContent) (w' : World) : Prop :=
  exists t,
    payload = [text_content t] /\
    (PyStr.startswith t "✅" = true \/ PyStr.startswith t "❌" = true) /\
    forall new, events w' = events w0 ++ new -> reports_stderr new t.

(** A computation that neither reads nor changes the state of the process. *)
Definition stateless {A} (m : M A) : Prop := exists r, forall w, m w = (r, w).

(** The handlers that work on a path, each with the key of its path. *)
Definition file_based : list (string * string) :=
  [("review_code", "file_path");
   ("generate_tests", "source_file");
   ("performance_analysis", "file_path");
   ("code_quality_report", "project_path");
   ("security_audit", "target_path")].

(** The world once a handler has been entered. *)
Definition entered (name : string) (w : World) : World :=
  {| environ := environ w; events := events w ++ [EvHandler name] |}.

(** ** Concrete machines *)

Module Demo.

(** Twelve Python files below the directory [proj]. *)
Definition proj_files : list string :=
  (fun n => "proj/m" +:+ pretty n +:+ ".py") <$> seq 0 12.

(** A machine with the file [a.py], the directory [proj], the device
    [/dev/null], and the executable at [/usr/bin/gemini] when [installed];
    every launch ends as [run] says. *)
Definition machine (installed : bool) (run : res CompletedProcess) : OS := {|
  os_stat := fun v =>
    match v with
    | VStr p =>
        if bool_decide (p = "a.py") then Some RegularFile
        else if bool_decide (p = "proj") then Some Directory
        else if bool_decide (p = "/dev/null") then Some SpecialFile
        else if installed && bool_decide (p = "/usr/bin/gemini") then Some RegularFile
        else None
    | VBool _ => None
    end;
  os_access_X_OK := fun p => installed && bool_decide (p = "/usr/bin/gemini");
  os_getpwuid_dir := Some "/home/me";
  os_getpwnam_dir := fun _ => None;
  os_which := fun _ _ => None;
  os_read := fun v =>
    match v with
    | VStr "a.py" => Ok "print(1)"
    | _ => Raise (Exn FileNotFoundError "[Errno 2] No such file or directory")
    end;
  os_makedirs := fun _ => None;
  os_write := fun _ _ => None;
  os_glob := fun pattern =>
    if bool_decide (pattern = "proj/**/*.py") then proj_files else [];
  os_tree := fun p =>
    if bool_decide (p = "proj") then Some (DirTree [] (PyStr.str_drop 5 <$> proj_files))
    else None;
  os_run := fun _ _ _ _ => run
|}.

Definition finished : res CompletedProcess :=
  Ok {| returncode := 0; stdout := "ok"; stderr := "" |}.

Definition timed_out : res CompletedProcess :=
  Raise (Exn TimeoutExpired "Command timed out after 120 seconds").

(** The process at its start: [PATH] and [HOME] set, nothing done yet. *)
Definition world : World :=
  {| environ := {[ "PATH" := "/opt/x"; "HOME" := "/home/me" ]}; events := [] |}.

(** A process started without [PATH]. *)
Definition world_without_path : World :=
  {| environ := {[ "HOME" := "/home/me" ]}; events := [] |}.

End Demo.

(** ** The start of the server *)

(** [main], lines 671-680: the test of the executable at startup; either
    branch on the return code only logs. What follows in [main] hands the
    process over to the protocol loop. *)
Definition main_availability_test (os : OS) : M unit :=
  try_except
    (result ← run_gemini_command os [VStr "--version"] None 10;
     if (returncode result =? 0)%Z then mret tt else mret tt)
    (fun e => mret tt).

(** ** The test script *)

Definition test_prompt : string :=
  "Hello! Please respond with 'WSL2 Gemini CLI is working correctly' to confirm the fix is successful.".

(** [c.isspace()] for the characters of one byte. *)
Definition is_space (c : ascii) : bool :=
  let n := nat_of_ascii c in
  (9 <=? n) && (n <=? 13) || (28 <=? n) && (n <=? 32).

Fixpoint lstrip_space (s : string) : string :=
  match s with
  | EmptyString => EmptyString
  | String a s' => if is_space a then lstrip_space s' else s
  end.

Fixpoint rstrip_space (s : string) : string :=
  match s with
  | EmptyString => EmptyString
  | String a s' =>
      match rstrip_space s' with
      | EmptyString => if is_space a then EmptyString else String a EmptyString
      | r => String a r
      end
  end.

(** [s.strip()]. The white space that takes more than one byte in UTF-8 is
    left in place; what is stripped here is only printed. *)
Definition strip (s : string) : string := lstrip_space (rstrip_space s).

Section Script.
Context (os : OS).

(** What standard output does with a text that is written to it: [None]
  when it takes the text, the exception otherwise (an encoding that lacks
  a character of the text, a pipe that was closed). *)
Context (stdout_write : string -> option exn).

(** [print(s)] *)
Definition print (s : string) : M unit :=
match stdout_write s with
| Some e => raise e
| None => mret tt
end.

(** [test_gemini_cli] of [src/test_gemini_fix.py], lines 20-80. A [try]
  block gives [Some b] where the script has [return b], and [None] where
  it goes on. *)
Definition test_gemini_cli : M bool :=
print "🧪 Testing WSL2 Gemini CLI Fix";;
print (PyStr.repeat_str "=" 50);;
print (PyStr.nl +:+ "📋 Test 1: Gemini CLI Version Check");;
first ← try_except
  (result ← run_gemini_command os [VStr "--version"] None 15;
   if (returncode result =? 0)%Z then
     print ("✅ SUCCESS: Gemini version: " +:+ strip (stdout result));;
     mret None
   else
     print ("❌ FAILED: Return code " +:+ pretty (returncode result));;
     print ("   stderr: " +:+ stderr result);;
     mret (Some false))
  (fun e =>
     print ("❌ FAILED: Exception occurred: " +:+ exn_str e);;
     mret (Some false));
match first with
| Some b => mret b
| None =>
    print (PyStr.nl +:+ "📋 Test 2: Gemini CLI Help");;
    second ← try_except
      (result ← run_gemini_command os [VStr "--help"] None 15;
       if (returncode result =? 0)%Z then
         print "✅ SUCCESS: Help command executed successfully";;
         (if PyStr.contains "Options:" (stdout result) &&
             PyStr.contains "--prompt" (stdout result)
          then print "✅ SUCCESS: Help output contains expected content"
          else print "⚠️  WARNING: Help output format might be different");;
         mret None
       else
         print ("❌ FAILED: Return code " +:+ pretty (returncode result));;
         print ("   stderr: " +:+ stderr result);;
         mret (Some false))
      (fun e =>
         print ("❌ FAILED: Exception occurred: " +:+ exn_str e);;
         mret (Some false));
    match second with
    | Some b => mret b
    | None =>
        print (PyStr.nl +:+ "📋 Test 3: Simple Prompt Execution");;
        third ← try_except
          (result ← run_gemini_command os [VStr "--prompt"; VStr test_prompt] None 30;
           if (returncode result =? 0)%Z then
             print "✅ SUCCESS: Prompt execution completed";;
             print ("   Response preview: " +:+ PyStr.str_take 100 (stdout result) +:+ "...");;
             (if 10 <? String.length (strip (stdout result))
              then print "✅ SUCCESS: Received substantial response from Gemini"
              else print "⚠️  WARNING: Response seems too short");;
             mret None
           else
             print ("❌ FAILED: Return code " +:+ pretty (returncode result));;
             print ("   stderr: " +:+ stderr result);;
             mret (Some false))
          (fun e =>
             print ("❌ FAILED: Exception occurred: " +:+ exn_str e);;
             mret (Some false));
        match third with
        | Some b => mret b
        | None => mret true
        end
    end
end.

End Script.

(** ** Vocabulary for the further properties *)

(** The optional arguments of the tools with the value each handler takes
    when the argument is absent (the second argument of [args.get]). *)
Definition optional_defaults : list (string * string * value) :=
  [("review_code", "review_type", VStr "general");
   ("generate_tests", "test_framework", VStr "jest");
   ("generate_tests", "coverage_level", VStr "comprehensive");
   ("security_audit", "audit_level", VStr "quick");
   ("code_quality_report", "include_metrics", VBool true);
   ("ask_gemini", "include_all_files", VBool false)].

(** The [timeout] that the handler of a tool passes to the invoker. *)
Definition tool_timeout (name : string) : Z :=
  if bool_decide (name = "review_code") then 90
  else if bool_decide (name = "generate_tests") then 120
  else if bool_decide (name = "security_audit") then 60
  else if bool_decide (name = "performance_analysis") then 90
  else if bool_decide (name = "code_quality_report") then 150
  else if bool_decide (name = "ask_gemini") then 120
  else 0.

(** What a call of the tool [name] may leave in the history. *)
Definition allowed (name : string) (ev : event) : Prop :=
  match ev with
  | EvHandler n => n = name
  | EvInvoke args timeout =>
      timeout = tool_timeout name /\ exists rest, args = VStr "--prompt" :: rest
  | EvSpawn cmd env cwd timeout _ =>
      timeout = tool_timeout name /\ exists p rest, cmd = VStr p :: VStr "--prompt" :: rest
  | EvMakedirs p => name = "generate_tests" /\ p = "./tests"
  | EvWrite p _ => name = "generate_tests" /\ PyStr.startswith p "./tests/" = true
  end.

(** A computation whose every run takes the process from a state to a
    state related to it by [R]. *)
Definition steps {A} (R : World -> World -> Prop) (m : M A) : Prop :=
  forall w, R w (m w).2.

(** [w'] has the history of [w] and after it only events of [Q]. *)
Definition extends (Q : event -> Prop) (w w' : World) : Prop :=
  exists new, events w' = events w ++ new /\ Forall Q new.

(** [w'] has the [os.environ] of [w], provided [PATH] is set in [w]. *)
Definition same_environ (w w' : World) : Prop :=
  forall old, environ w !! "PATH" = Some old -> environ w' = environ w.

(** Whether a file can be opened and read as text. *)
Definition readable (os : OS) (file_path : value) : bool :=
  match os_read os file_path with
  | Ok _ => true
  | Raise _ => false
  end.

(** How many launches a history holds. *)
Fixpoint launches (l : list event) : nat :=
  match l with
  | [] => 0
  | EvSpawn _ _ _ _ _ :: l' => S (launches l')
  | _ :: l' => launches l'
  end.

(** A machine on which no file can be written. *)
Definition read_only (os : OS) : OS := {|
  os_stat := os_stat os;
  os_access_X_OK := os_access_X_OK os;
  os_getpwuid_dir := os_getpwuid_dir os;
  os_getpwnam_dir := os_getpwnam_dir os;
  os_which := os_which os;
  os_read := os_read os;
  os_makedirs := os_makedirs os;
  os_write := fun _ _ => Some (Exn OSError "[Errno 30] Read-only file system");
  os_glob := os_glob os;
  os_tree := os_tree os;
  os_run := os_run os
|}.

(** The names of the properties that the catalog declares for a tool. *)
Definition declared_properties (tool : string) : list string :=
  flat_map (fun t => if bool_decide (name t = tool)
                     then (properties (inputSchema t)).*1 else [])
           list_tools.

(** The three tests of the script, in its order: the arguments and the
    timeout of each. *)
Definition script_tests : list (list value * Z) :=
  [([VStr "--version"], 15%Z); ([VStr "--help"], 15%Z);
   ([VStr "--prompt"; VStr test_prompt], 30%Z)].

(** The history of a test that passed: one launch that returned code 0. *)
Definition passed (args : list value) (timeout : Z) (l : list event) : Prop :=
  exists cmd env cwd cp,
    l = [EvInvoke args timeout; EvSpawn cmd env cwd timeout (Ok cp)] /\
    returncode cp = 0%Z.

(** The history of a test that failed: nothing was launched, or the launch
    raised or returned another code. *)
Definition failed (args : list value) (timeout : Z) (l : list event) : Prop :=
  l = [EvInvoke args timeout] \/
  exists cmd env cwd r,
    l = [EvInvoke args timeout; EvSpawn cmd env cwd timeout r] /\
    forall cp, r = Ok cp -> returncode cp <> 0%Z.

(** A run of the script over a list of tests: the tests pass one after the
    other up to the first that fails, which ends the run with [False]; the
    run that reaches the end gives [True]. *)
Inductive script_run : list (list value * Z) -> bool -> list event -> Prop :=
| script_end : script_run [] true []
| script_pass args timeout l rest b new :
    passed args timeout l -> script_run rest b new ->
    script_run ((args, timeout) :: rest) b (l ++ new)
| script_fail args timeout l rest :
    failed args timeout l ->
    script_run ((args, timeout) :: rest) false l.

(** An event that launches nothing and creates nothing. *)
Definition quiet (ev : event) : Prop :=
  match ev with
  | EvHandler _ | EvInvoke _ _ => True
  | _ => False
  end.


(** The candidate locations of the executable that are fixed paths, under an
    environment: [gemini_locations] without its last entry, the result of
    the search-path lookup. *)
Definition fixed_locations_in (os : OS) (env : gmap string string) : list string :=
  ["/home/user/.npm-global/bin/gemini"; "/usr/local/bin/gemini"; "/usr/bin/gemini";
   expanduser_in os env "~/.npm-global/bin/gemini"].

(** None of the fixed candidate locations is usable in the state [w]. *)
Definition without_fixed (os : OS) (w : World) : Prop :=
  forall l, l ∈ fixed_locations_in os (environ w) -> usable os (Some l) = false.

(** From a state without a usable fixed location to another such state,
    with nothing but quiet events added. *)
Definition calm (os : OS) (w w' : World) : Prop :=
  without_fixed os w -> without_fixed os w' /\ extends quiet w w'.

(** The machine [os] with an executable shell at [/bin/sh]. *)
Definition with_shell (os : OS) : OS := {|
  os_stat := fun v => if bool_decide (v = VStr "/bin/sh") then Some RegularFile else os_stat os v;
  os_access_X_OK := fun p => bool_decide (p = "/bin/sh") || os_access_X_OK os p;
  os_getpwuid_dir := os_getpwuid_dir os;
  os_getpwnam_dir := os_getpwnam_dir os;
  os_which := os_which os;
  os_read := os_read os;
  os_makedirs := os_makedirs os;
  os_write := os_write os;
  os_glob := os_glob os;
  os_tree := os_tree os;
  os_run := os_run os
|}.

(** * Properties *)

(** ** The monad *)

Section MonadFacts.
Context {A B : Type}.

Lemma bind_ok (m : M A) (f : A -> M B) w a w' :
  m w = (Ok a, w') -> (m ≫= f) w = f a w'.
Proof. intros H. unfold mbind, M_bind. by rewrite H. Qed.

Lemma bind_raise (m : M A) (f : A -> M B) w e w' :
  m w = (Raise e, w') -> (m ≫= f) w = (Raise e, w').
Proof. intros H. unfold mbind, M_bind. by rewrite H. Qed.

Lemma bind_ret (a : A) (f : A -> M B) w : (mret a ≫= f) w = f a w.
Proof. reflexivity. Qed.

(** A [try] whose [except] clause always returns never raises. *)
Lemma try_except_returns (body : M A) (handler : exn -> M A) w :
  (forall e w1, exists a w2, handler e w1 = (Ok a, w2)) ->
  exists a w', try_except body handler w = (Ok a, w').
Proof.
  intros Hh. unfold try_except.
  destruct (body w) as [[a|e] w1]; [eauto | apply Hh].
Qed.

End MonadFacts.

Lemma stateless_ret {A} (a : A) : stateless (mret a).
Proof. by exists (Ok a). Qed.

Lemma stateless_raise {A} (e : exn) : stateless (raise e : M A).
Proof. by exists (Raise e). Qed.

Lemma stateless_bind {A B} (m : M A) (f : A -> M B) :
  stateless m -> (forall a, stateless (f a)) -> stateless (m ≫= f).
Proof.
  intros [[a|e] Hm] Hf.
  - destruct (Hf a) as [r Hr]. exists r. intros w. by erewrite bind_ok.
  - exists (Raise e). intros w. by erewrite bind_raise.
Qed.

Lemma stateless_try_except {A} (body : M A) (handler : exn -> M A) :
  stateless body -> (forall e, stateless (handler e)) -> stateless (try_except body handler).
Proof.
  intros [[a|e] Hb] Hh; unfold try_except.
  - exists (Ok a). intros w. by rewrite Hb.
  - destruct (Hh e) as [r Hr]. exists r. intros w. by rewrite Hb.
Qed.

Lemma stateless_for_each {A B} (step : B -> A -> M B) (l : list A) :
  (forall acc x, stateless (step acc x)) -> forall acc, stateless (for_each step l acc).
Proof.
  intros Hstep. induction l as [|x l IH]; intros acc; simpl.
  - apply stateless_ret.
  - apply stateless_bind; [apply Hstep|apply IH].
Qed.

(** What follows a stateless step starts from the same state. *)
Lemma stateless_then {A B} (m : M A) (f : A -> M B) w :
  stateless m ->
  (exists e, (m ≫= f) w = (Raise e, w)) \/ (exists a, (m ≫= f) w = f a w).
Proof.
  intros [[a|e] Hm]; [right; exists a|left; exists e].
  - by erewrite bind_ok.
  - by erewrite bind_raise.
Qed.


(** ** Strings *)

Section StringFacts.

Lemma app_cons a (s t : string) : String a s +:+ t = String a (s +:+ t).
Proof. reflexivity. Qed.

Lemma app_nil_l (s : string) : "" +:+ s = s.
Proof. reflexivity. Qed.

Lemma app_assoc_str (s t u : string) : (s +:+ t) +:+ u = s +:+ t +:+ u.
Proof. induction s as [|a s IH]; [done|]. by rewrite !app_cons, IH. Qed.

Lemma prefix_app (p s : string) : String.prefix p (p +:+ s) = true.
Proof.
  induction p as [|a p IH]; [by destruct s|].
  rewrite app_cons. simpl. by destruct (ascii_dec a a).
Qed.

Lemma prefix_inv (p s : string) :
  String.prefix p s = true -> exists t, s = p +:+ t.
Proof.
  revert s. induction p as [|a p IH]; intros s H.
  - by exists s.
  - destruct s as [|b s]; [done|]. simpl in H.
    destruct (ascii_dec a b) as [->|]; [|done].
    destruct (IH _ H) as [t ->]. by exists t.
Qed.

Lemma contains_nil (sub : string) :
  PyStr.contains sub "" = String.prefix sub "".
Proof. unfold PyStr.contains. apply orb_false_r. Qed.

Lemma contains_cons (sub : string) a s :
  PyStr.contains sub (String a s) =
    String.prefix sub (String a s) || PyStr.contains sub s.
Proof. reflexivity. Qed.

(** [sub in s] says that [s] is [sub] between two strings. *)
Lemma contains_spec (sub s : string) :
  PyStr.contains sub s = true <-> exists pre post, s = pre +:+ sub +:+ post.
Proof.
  split.
  - induction s as [|a s IH].
    + rewrite contains_nil. intros H.
      apply prefix_inv in H as [t ->]. by exists "", t.
    + rewrite contains_cons, orb_true_iff. intros [H|H].
      * apply prefix_inv in H as [t Ht]. exists "", t. by rewrite Ht.
      * destruct (IH H) as (pre & post & ->). by exists (String a pre), post.
  - intros (pre & post & ->). induction pre as [|a pre IH].
    + rewrite app_nil_l. destruct (sub +:+ post) as [|b u] eqn:E.
      * rewrite contains_nil, <- E. apply prefix_app.
      * rewrite contains_cons, <- E. by rewrite prefix_app.
    + rewrite app_cons, contains_cons. by rewrite IH, orb_true_r.
Qed.

Lemma contains_app_l (sub s : string) : PyStr.contains sub (sub +:+ s) = true.
Proof. apply contains_spec. by exists "", s. Qed.

Lemma contains_app_r (sub q s : string) :
  PyStr.contains sub s = true -> PyStr.contains sub (q +:+ s) = true.
Proof.
  rewrite !contains_spec. intros (pre & post & ->).
  exists (q +:+ pre), post. by rewrite app_assoc_str.
Qed.

Lemma contains_trans (a b s : string) :
  PyStr.contains a b = true -> PyStr.contains b s = true -> PyStr.contains a s = true.
Proof.
  rewrite !contains_spec. intros (p1 & q1 & ->) (p2 & q2 & ->).
  exists (p2 +:+ p1), (q1 +:+ q2). by rewrite !app_assoc_str.
Qed.

Lemma app_nil_r_str (s : string) : s +:+ "" = s.
Proof. induction s as [|a s IH]; [done|]. by rewrite app_cons, IH. Qed.

Lemma contains_refl (s : string) : PyStr.contains s s = true.
Proof. apply contains_spec. exists "", "". by rewrite app_nil_l, app_nil_r_str. Qed.

Lemma contains_empty (s : string) : PyStr.contains "" s = true.
Proof. apply contains_spec. by exists "", s. Qed.

Lemma contains_app_mid (sub a b : string) :
  PyStr.contains sub a = true -> PyStr.contains sub (a +:+ b) = true.
Proof.
  rewrite !contains_spec. intros (pre & post & ->).
  exists pre, (post +:+ b). by rewrite !app_assoc_str.
Qed.

(** [s] occurs in [s or d]. *)
Lemma contains_or_else (s d : string) : PyStr.contains s (PyStr.or_else s d) = true.
Proof. destruct s as [|a s]; [apply contains_empty|apply contains_refl]. Qed.

Lemma contains_join (sub sep : string) (l : list string) :
  (exists x, x ∈ l /\ PyStr.contains sub x = true) ->
  PyStr.contains sub (PyStr.join sep l) = true.
Proof.
  intros (x & Hx & Hsub). induction l as [|y l IH]; [by inversion Hx|].
  unfold PyStr.join in *. simpl.
  apply elem_of_cons in Hx as [<-|Hx].
  - destruct l; [done|]. by apply contains_app_mid.
  - destruct l as [|z l]; [by inversion Hx|].
    apply contains_app_r, contains_app_r. by apply IH.
Qed.

End StringFacts.

(** Occurrence at the end of a text put together with [+:+]. *)
Ltac at_the_end :=
  repeat apply contains_app_r;
  first [apply contains_or_else | apply contains_refl | apply contains_app_l].

(** ** Paths *)

Ltac zcases :=
  repeat match goal with
         | |- context [(?a <=? ?b)%Z] => destruct (Z.leb_spec a b)
         | |- context [(?a <? ?b)%Z] => destruct (Z.ltb_spec a b)
         end.

Section PathFacts.
Import PyStr PosixPath.

Lemma rfind_cons c a s :
  rfind c (String a s) =
    if (0 <=? rfind c s)%Z then (rfind c s + 1)%Z
    else if Ascii.eqb a c then 0%Z else (-1)%Z.
Proof. reflexivity. Qed.

Lemma rfind_range c s : (-1 <= rfind c s < Z.of_nat (String.length s))%Z.
Proof.
  induction s as [|a s IH]; [simpl; lia|].
  rewrite rfind_cons. cbn [String.length]. zcases; [lia|].
  destruct (Ascii.eqb a c); lia.
Qed.

Lemma str_drop_0 s : str_drop 0 s = s.
Proof. by destruct s. Qed.

Lemma str_drop_nil n : str_drop n "" = "".
Proof. by destruct n. Qed.

Lemma str_drop_drop n : forall m s, str_drop n (str_drop m s) = str_drop (m + n) s.
Proof.
  intros m. induction m as [|m IH]; intros s.
  - by rewrite str_drop_0.
  - destruct s as [|a s]; [by rewrite !str_drop_nil|]. simpl. apply IH.
Qed.

Lemma str_take_drop n : forall s, str_take n s +:+ str_drop n s = s.
Proof.
  induction n as [|n IH]; intros s; [by destruct s|].
  destruct s as [|a s]; [done|]. simpl. by rewrite app_cons, IH.
Qed.

(** [rfind] after the first [n] characters are dropped. *)
Lemma rfind_drop c n : forall s,
  rfind c (str_drop n s) =
    if (Z.of_nat n <=? rfind c s)%Z then (rfind c s - Z.of_nat n)%Z else (-1)%Z.
Proof.
  induction n as [|n IH]; intros s.
  - rewrite str_drop_0. pose proof (rfind_range c s). zcases; lia.
  - destruct s as [|a s].
    { rewrite str_drop_nil. cbn [rfind]. zcases; lia. }
    cbn [str_drop]. rewrite IH, rfind_cons. pose proof (rfind_range c s).
    destruct (Z.leb_spec 0 (rfind c s)); [|destruct (Ascii.eqb a c)]; zcases; lia.
Qed.

Lemma count_app c (s t : string) : count c (s +:+ t) = count c s + count c t.
Proof. induction s as [|a s IH]; [done|]. rewrite app_cons. simpl. rewrite IH. lia. Qed.

Lemma rfind_none_count c s : rfind c s = (-1)%Z -> count c s = 0.
Proof.
  induction s as [|a s IH]; [done|]. rewrite rfind_cons. simpl.
  pose proof (rfind_range c s). zcases; [lia|].
  destruct (Ascii.eqb a c); [lia|]. intros _. apply IH. lia.
Qed.

Lemma rfind_basename c s : c = "/"%char -> rfind c (basename s) = (-1)%Z.
Proof.
  intros ->. unfold basename, slice_from. rewrite rfind_drop.
  pose proof (rfind_range "/" s). zcases; lia.
Qed.

(** A base name holds no separator. *)
Lemma basename_no_sep s : count "/" (basename s) = 0.
Proof. by apply rfind_none_count, rfind_basename. Qed.

(** The two parts of [splitext] put together give the path back. *)
Lemma splitext_join p : (splitext p).1 +:+ (splitext p).2 = p.
Proof.
  unfold splitext, slice_to, slice_from.
  destruct (_ <? _)%Z; [|apply app_nil_r_str].
  destruct (splitext_scan _ _ _); [apply str_take_drop|apply app_nil_r_str].
Qed.

Lemma slice_drop m i j s :
  (0 <= i)%Z ->
  slice i j (str_drop m s) = slice (i + Z.of_nat m) (j + Z.of_nat m) s.
Proof.
  intros Hi. unfold slice. rewrite str_drop_drop.
  replace (j + Z.of_nat m - (i + Z.of_nat m))%Z with (j - i)%Z by lia.
  do 2 f_equal. lia.
Qed.

Lemma splitext_scan_drop m s k : forall i,
  (0 <= i)%Z ->
  splitext_scan (str_drop m s) i k = splitext_scan s (i + Z.of_nat m) k.
Proof.
  induction k as [|k IH]; intros i Hi; [done|]. simpl.
  rewrite slice_drop by done.
  replace (i + 1 + Z.of_nat m)%Z with (i + Z.of_nat m + 1)%Z by lia.
  destruct (negb _); [done|].
  rewrite IH by lia. f_equal. lia.
Qed.

(** The extension of a path is the extension of its base name. *)
Lemma splitext_basename_ext s : (splitext (basename s)).2 = (splitext s).2.
Proof.
  unfold splitext at 1. rewrite rfind_basename by done.
  unfold basename, slice_from. rewrite rfind_drop.
  pose proof (rfind_range "/" s) as Hsep. pose proof (rfind_range "." s) as Hdot.
  set (sep := rfind "/" s) in *. set (dot := rfind "." s) in *.
  unfold splitext. fold sep dot. unfold slice_from, slice_to.
  replace (Z.of_nat (Z.to_nat (sep + 1))) with (sep + 1)%Z by lia.
  destruct (Z.leb_spec (sep + 1) dot) as [Hle|Hgt].
  - replace (-1 <? dot - (sep + 1))%Z with true by (symmetry; apply Z.ltb_lt; lia).
    replace (sep <? dot)%Z with true by (symmetry; apply Z.ltb_lt; lia).
    rewrite splitext_scan_drop by lia.
    replace (-1 + 1 + Z.of_nat (Z.to_nat (sep + 1)))%Z with (sep + 1)%Z by lia.
    replace (dot - (sep + 1) - (-1 + 1))%Z with (dot - (sep + 1))%Z by lia.
    destruct (splitext_scan s (sep + 1) _); [|done]. cbn [snd].
    rewrite str_drop_drop. f_equal. lia.
  - replace (-1 <? -1)%Z with false by done.
    replace (sep <? dot)%Z with false by (symmetry; apply Z.ltb_ge; lia). done.
Qed.

(** Base name and extension, as the handler takes them, are the two parts
    of the file's name. *)
Lemma base_ext_join s :
  (splitext (basename s)).1 +:+ (splitext s).2 = basename s.
Proof. rewrite <- splitext_basename_ext. apply splitext_join. Qed.

Lemma test_file_name_no_sep s : count "/" (test_file_name s) = 0.
Proof.
  pose proof (basename_no_sep s) as Hb. rewrite <- (base_ext_join s), count_app in Hb.
  unfold test_file_name, test_file_name_of.
  repeat case_bool_decide; rewrite ?count_app; simpl; lia.
Qed.

End PathFacts.

(** ** The environment of the child *)

Section Invoker.
Context (os : OS).

Lemma add_path_eq env path cur w :
  env !! "PATH" = Some cur ->
  add_path env path w = (Ok (<["PATH" := prepend_unless_in path cur]> env), w).
Proof.
  intros Hcur. unfold add_path, getitem, prepend_unless_in.
  rewrite Hcur. rewrite bind_ret.
  destruct (PyStr.contains path cur); simpl.
  - by rewrite insert_id.
  - by rewrite bind_ret.
Qed.

Lemma for_each_add_path l : forall env cur w,
  env !! "PATH" = Some cur ->
  for_each add_path l env w =
    (Ok (<["PATH" := foldl (fun cur path => prepend_unless_in path cur) cur l]> env), w).
Proof.
  induction l as [|path l IH]; intros env cur w Hcur; simpl.
  - by rewrite insert_id.
  - erewrite bind_ok by (by apply add_path_eq).
    erewrite IH by apply lookup_insert_eq.
    by rewrite insert_insert_eq.
Qed.

Lemma build_env_eq w : build_env os w = (Ok (child_env os (environ w)), w).
Proof.
  unfold build_env, child_env, child_path, os_environ_copy, expanduser.
  unfold mbind at 1, M_bind at 1. cbv beta iota.
  unfold mbind at 1, M_bind at 1. cbv beta iota.
  set (cur0 := default "" (environ w !! "PATH")).
  destruct (PyStr.contains "/home/user/.npm-global/bin" cur0) eqn:Hin; simpl negb; cbv iota.
  - assert (Hcur : environ w !! "PATH" = Some cur0).
    { subst cur0. destruct (environ w !! "PATH") eqn:E; [done|].
      vm_compute in Hin. discriminate. }
    erewrite for_each_add_path by exact Hcur.
    replace (prepend_unless_in "/home/user/.npm-global/bin" cur0) with cur0
      by (unfold prepend_unless_in; by rewrite Hin).
    done.
  - erewrite for_each_add_path by apply lookup_insert_eq.
    rewrite insert_insert_eq.
    replace (prepend_unless_in "/home/user/.npm-global/bin" cur0)
      with ("/home/user/.npm-global/bin" +:+ ":" +:+ cur0)
      by (unfold prepend_unless_in; by rewrite Hin).
    done.
Qed.

(** *** The search path of the child *)

Lemma prepend_contains path cur :
  PyStr.contains path (prepend_unless_in path cur) = true.
Proof.
  unfold prepend_unless_in. destruct (PyStr.contains path cur) eqn:E; [done|].
  apply contains_app_l.
Qed.

Lemma prepend_keeps c path cur :
  PyStr.contains c cur = true -> PyStr.contains c (prepend_unless_in path cur) = true.
Proof.
  intros H. unfold prepend_unless_in. destruct (PyStr.contains path cur); [done|].
  rewrite <- app_assoc_str. by apply contains_app_r.
Qed.

Lemma prepend_all_keeps c l : forall cur,
  PyStr.contains c cur = true ->
  PyStr.contains c (foldl (fun cur path => prepend_unless_in path cur) cur l) = true.
Proof. induction l as [|x l IH]; intros cur H; [done|]. by apply IH, prepend_keeps. Qed.

Lemma prepend_all_contains c l : forall cur,
  c ∈ l ->
  PyStr.contains c (foldl (fun cur path => prepend_unless_in path cur) cur l) = true.
Proof.
  induction l as [|x l IH]; intros cur; [by inversion 1|].
  rewrite elem_of_cons. intros [->|H]; simpl.
  - apply prepend_all_keeps, prepend_contains.
  - by apply IH.
Qed.

(** Every candidate directory occurs in the search path of the child. *)
Lemma child_path_contains env c :
  c ∈ "/home/user/.npm-global/bin" :: additional_paths_in os env ->
  PyStr.contains c (child_path os env) = true.
Proof.
  rewrite elem_of_cons. unfold child_path. intros [->|H].
  - apply prepend_all_keeps, prepend_contains.
  - by apply prepend_all_contains.
Qed.

Lemma prepend_all_noop l cur :
  Forall (fun c => PyStr.contains c cur = true) l ->
  foldl (fun cur path => prepend_unless_in path cur) cur l = cur.
Proof.
  induction 1 as [|c l Hc _ IH]; [done|]. simpl.
  unfold prepend_unless_in at 2. by rewrite Hc.
Qed.

Lemma expanduser_in_insert_path env v path :
  expanduser_in os (<["PATH" := v]> env) path = expanduser_in os env path.
Proof. unfold expanduser_in. by rewrite lookup_insert_ne. Qed.

Lemma child_path_idempotent env : child_path os (child_env os env) = child_path os env.
Proof.
  unfold child_path at 1.
  assert (child_env os env !! "PATH" = Some (child_path os env)) as ->
    by apply lookup_insert_eq.
  assert (additional_paths_in os (child_env os env) = additional_paths_in os env) as ->.
  { unfold additional_paths_in, child_env. by rewrite expanduser_in_insert_path. }
  simpl default. unfold prepend_unless_in at 2.
  rewrite child_path_contains by apply list_elem_of_here.
  apply prepend_all_noop, Forall_forall. intros c Hc.
  apply child_path_contains. by apply list_elem_of_further.
Qed.

(** Building again from the environment that was built adds nothing. *)
Lemma child_env_idempotent env : child_env os (child_env os env) = child_env os env.
Proof.
  unfold child_env at 1. rewrite child_path_idempotent.
  unfold child_env. by rewrite insert_insert_eq.
Qed.

Lemma build_env_idempotent w env w1 :
  build_env os w = (Ok env, w1) ->
  build_env os {| environ := env; events := events w1 |} =
    (Ok env, {| environ := env; events := events w1 |}).
Proof.
  rewrite !build_env_eq. intros [= <- <-]. cbn [environ].
  by rewrite child_env_idempotent.
Qed.

(** The search path of the process stays, as the tail of the child's. *)
Lemma child_path_keeps_original env :
  exists added, child_path os env = added +:+ default "" (env !! "PATH").
Proof.
  unfold child_path.
  assert (Hstep : forall path cur, exists added, prepend_unless_in path cur = added +:+ cur).
  { intros path cur. unfold prepend_unless_in. destruct (PyStr.contains path cur).
    - by exists "".
    - exists (path +:+ ":"). by rewrite app_assoc_str. }
  assert (Hall : forall l cur, exists added,
    foldl (fun cur path => prepend_unless_in path cur) cur l = added +:+ cur).
  { induction l as [|x l IH]; intros cur; [by exists ""|]. simpl.
    destruct (Hstep x cur) as [a1 ->]. destruct (IH (a1 +:+ cur)) as [a2 ->].
    exists (a2 +:+ a1). by rewrite app_assoc_str. }
  destruct (Hstep "/home/user/.npm-global/bin" (default "" (env !! "PATH"))) as [a1 ->].
  destruct (Hall (additional_paths_in os env) (a1 +:+ default "" (env !! "PATH"))) as [a2 ->].
  exists (a2 +:+ a1). by rewrite app_assoc_str.
Qed.

(** The third candidate is never prepended: it occurs inside the first,
    which is in the search path by then. *)
Lemma bin_never_prepended cur :
  let cur2 := prepend_unless_in "/usr/bin" (prepend_unless_in "/usr/local/bin" cur) in
  prepend_unless_in "/bin" cur2 = cur2.
Proof.
  intros cur2. unfold prepend_unless_in at 1.
  replace (PyStr.contains "/bin" cur2) with true; [done|]. symmetry.
  apply (contains_trans _ "/usr/local/bin"); [reflexivity|].
  apply prepend_keeps, prepend_contains.
Qed.

(** *** Resolution *)

Lemma location_ok_eq location w :
  location_ok os location w = (Ok (usable os location), w).
Proof.
  unfold location_ok, usable, os_path_exists, os_access, mbind, M_bind, mret, M_ret.
  destruct location as [l|]; [|done].
  destruct (PyStr.truthy l); simpl; [|done].
  by destruct (os_stat os (VStr l)).
Qed.

Lemma first_location_eq l w :
  first_location os l w = (Ok (first_usable os l), w).
Proof.
  induction l as [|x l IH]; [done|]. simpl.
  erewrite bind_ok by apply location_ok_eq.
  by destruct (usable os x).
Qed.

Lemma usable_truthy p : usable os (Some p) = true -> PyStr.truthy p = true.
Proof. unfold usable. by destruct (PyStr.truthy p). Qed.

Lemma first_usable_Some l p :
  first_usable os l = Some p <->
  exists pre post, l = pre ++ Some p :: post /\
    Forall (fun x => usable os x = false) pre /\ usable os (Some p) = true.
Proof.
  induction l as [|x l IH]; simpl.
  - split; [done|]. intros (pre & post & H & _). by destruct pre.
  - destruct (usable os x) eqn:Hx.
    + split.
      * intros ->. exists [], l. by repeat split.
      * intros (pre & post & H & Hpre & Hp).
        destruct pre as [|y pre]; simplify_eq/=; [done|].
        inversion Hpre; congruence.
    + rewrite IH. split.
      * intros (pre & post & -> & Hpre & Hp).
        exists (x :: pre), post. repeat split; [|done]. by constructor.
      * intros (pre & post & H & Hpre & Hp).
        destruct pre as [|y pre]; simplify_eq/=; [congruence|].
        inversion Hpre; subst. by exists pre, post.
Qed.

Lemma first_usable_None l :
  first_usable os l = None <-> Forall (fun x => usable os x = false) l.
Proof.
  induction l as [|x l IH]; simpl; [by split; [constructor|]|].
  destruct (usable os x) eqn:Hx.
  - split.
    + intros ->. done.
    + inversion 1; congruence.
  - rewrite IH. split; [by constructor|by inversion 1].
Qed.

Lemma resolve_gemini_eq env cp w :
  env !! "PATH" = Some cp ->
  resolve_gemini os env w =
    match first_usable os (gemini_locations_in os (environ w)) with
    | Some p => (Ok p, w)
    | None =>
        let w' := {| environ := environ_after_retry (environ w); events := events w |} in
        match os_which os "gemini" (Some cp) with
        | Some p => if PyStr.truthy p then (Ok p, w') else (Raise not_found, w')
        | None => (Raise not_found, w')
        end
    end.
Proof.
  intros Hcp. unfold resolve_gemini, expanduser, shutil_which.
  unfold mbind at 1, M_bind at 1. cbv beta iota.
  unfold mbind at 1, M_bind at 1. cbv beta iota.
  erewrite bind_ok by apply first_location_eq.
  fold (gemini_locations_in os (environ w)).
  destruct (first_usable os (gemini_locations_in os (environ w))) as [p|] eqn:Hfirst.
  - assert (PyStr.truthy p = true) as Ht.
    { apply usable_truthy. apply first_usable_Some in Hfirst.
      by destruct Hfirst as (? & ? & _ & _ & ?). }
    unfold not_path. rewrite Ht. simpl negb. cbv iota.
    rewrite bind_ret. by rewrite Ht.
  - unfold not_path. cbv iota.
    unfold os_environ_get, getitem, os_environ_set, try_finally.
    rewrite Hcp.
    unfold mbind, M_bind, mret, M_ret. cbn [environ events].
    rewrite lookup_insert_eq, insert_insert_eq.
    unfold environ_after_retry, raise, not_found.
    destruct (os_which os "gemini" (Some cp)) as [p|]; [|done].
    by destruct (PyStr.truthy p).
Qed.

(** *** The whole invoker *)

Lemma run_gemini_command_eq args working_dir timeout w :
  let env := child_env os (environ w) in
  let w1 := {| environ := environ w; events := events w ++ [EvInvoke args timeout] |} in
  let w2 := {| environ := environ_after_retry (environ w); events := events w1 |} in
  run_gemini_command os args working_dir timeout w =
    match first_usable os (gemini_locations_in os (environ w)) with
    | Some p => launch os p args env working_dir timeout w1
    | None =>
        match os_which os "gemini" (Some (child_path os (environ w))) with
        | Some p =>
            if PyStr.truthy p then launch os p args env working_dir timeout w2
            else (Raise not_found, w2)
        | None => (Raise not_found, w2)
        end
    end.
Proof.
  intros env w1 w2. unfold run_gemini_command.
  unfold mbind at 1, M_bind at 1, log at 1. cbv beta iota. fold w1.
  erewrite bind_ok by apply build_env_eq.
  assert (Hcp : child_env os (environ w1) !! "PATH" = Some (child_path os (environ w)))
    by apply lookup_insert_eq.
  unfold mbind at 1, M_bind at 1.
  rewrite (resolve_gemini_eq _ _ _ Hcp).
  change (environ w1) with (environ w). change (events w1) with (events w ++ [EvInvoke args timeout]).
  fold w1. fold w2.
  assert (Hlaunch : forall p w',
    ((working_dir0 ←
        match working_dir with
        | Some d => mret d
        | None =>
            home ← expanduser os "~";
            ex ← os_path_exists os (VStr home);
            mret (if negb ex then "/home/user" else home)
        end;
      try_except
        (result ← subprocess_run os (VStr p :: args) env working_dir0 timeout;
         mret result)
        (fun e => raise e)) : M CompletedProcess) w' =
    launch os p args env working_dir timeout w').
  { intros p w'. unfold launch, working_dir_in, expanduser, os_path_exists.
    destruct working_dir as [d|].
    - rewrite bind_ret. cbv beta.
      unfold try_except, raise, mbind, M_bind, subprocess_run, mret, M_ret.
      by destruct (os_run os (VStr p :: args) env d timeout).
    - unfold mbind at 1, M_bind at 1. unfold mbind at 1, M_bind at 1. cbv beta iota.
      rewrite bind_ret. cbv beta.
      unfold try_except, raise, mbind, M_bind, subprocess_run, mret, M_ret.
      destruct (os_stat os (VStr (expanduser_in os (environ w') "~"))); simpl;
        match goal with |- context [os_run ?a ?b ?c ?d ?e] =>
          by destruct (os_run a b c d e) end. }
  destruct (first_usable os (gemini_locations_in os (environ w))) as [p|].
  - apply Hlaunch.
  - cbv zeta.
    destruct (os_which os "gemini" (Some (child_path os (environ w)))) as [p|]; [|done].
    destruct (PyStr.truthy p); [|done]. apply Hlaunch.
Qed.

Lemma run_gemini_command_history args working_dir timeout w r w' :
  run_gemini_command os args working_dir timeout w = (r, w') ->
  (r = Raise not_found /\ events w' = events w ++ [EvInvoke args timeout]) \/
  (exists cmd env cwd,
     events w' = events w ++ [EvInvoke args timeout; EvSpawn cmd env cwd timeout r]).
Proof.
  rewrite run_gemini_command_eq. unfold launch. cbn [environ events].
  destruct (first_usable os _) as [p|].
  - intros [= <- <-]. right. eexists _, _, _. cbn [events]. by rewrite <- app_assoc.
  - destruct (os_which os "gemini" _) as [p|]; [destruct (PyStr.truthy p)|].
    + intros [= <- <-]. right. eexists _, _, _. cbn [events]. by rewrite <- app_assoc.
    + intros [= <- <-]. by left.
    + intros [= <- <-]. by left.
Qed.

Lemma run_gemini_command_environ args working_dir timeout w :
  environ (run_gemini_command os args working_dir timeout w).2 =
    match first_usable os (gemini_locations_in os (environ w)) with
    | Some _ => environ w
    | None => environ_after_retry (environ w)
    end.
Proof.
  rewrite run_gemini_command_eq. unfold launch. cbn [environ events].
  destruct (first_usable os _) as [p|]; [done|].
  destruct (os_which os "gemini" _) as [p|]; [destruct (PyStr.truthy p)|]; done.
Qed.

(** With [PATH] set beforehand, the retry leaves [os.environ] as it was. *)
Lemma environ_restored_when_set args working_dir timeout w old :
  environ w !! "PATH" = Some old ->
  environ (run_gemini_command os args working_dir timeout w).2 = environ w.
Proof.
  intros Hold. rewrite run_gemini_command_environ.
  destruct (first_usable os _); [done|].
  unfold environ_after_retry. rewrite Hold. by apply insert_id.
Qed.

(** C5. For every invocation, the executable is the first entry of the
    candidate list, in its order (the three fixed paths, the path below
    the expanded home, the search-path lookup), that is non-empty, exists
    and is executable; when no entry is, it is what the search-path lookup
    finds under the search path built for the child; and when that finds
    nothing either, the invocation raises [FileNotFoundError], which is
    not [TimeoutExpired], and the history of the call holds no launch. *)
Theorem executable_resolution args working_dir timeout w :
  exists found w',
    resolved os (environ w) found /\
    match found with
    | Some p =>
        exists cwd,
          let env := child_env os (environ w) in
          let outcome := os_run os (VStr p :: args) env cwd timeout in
          run_gemini_command os args working_dir timeout w = (outcome, w') /\
          events w' = events w ++
            [EvInvoke args timeout; EvSpawn (VStr p :: args) env cwd timeout outcome]
    | None =>
        run_gemini_command os args working_dir timeout w =
          (Raise (Exn FileNotFoundError not_found_message), w') /\
        FileNotFoundError <> TimeoutExpired /\
        events w' = events w ++ [EvInvoke args timeout]
    end.
Proof.
  rewrite run_gemini_command_eq. unfold launch. cbn [environ events].
  destruct (first_usable os _) as [p|] eqn:Hfirst.
  - apply first_usable_Some in Hfirst as (pre & post & Heq & Hpre & Hp).
    eexists (Some p), _. split; [by eapply resolved_candidate|].
    eexists. split; [reflexivity|]. cbn [events]. by rewrite <- app_assoc.
  - apply first_usable_None in Hfirst.
    destruct (os_which os "gemini" _) as [p|] eqn:Hwhich;
      [destruct (PyStr.truthy p) eqn:Ht|].
    + eexists (Some p), _. split.
      * eapply resolved_retry; [done..|]. by intros ->.
      * eexists. split; [reflexivity|]. cbn [events]. by rewrite <- app_assoc.
    + exists None. eexists. split; [|done].
      apply resolved_nowhere; [done|]. right. destruct p; [done|discriminate].
    + exists None. eexists. split; [|done].
      apply resolved_nowhere; [done|]. by left.
Qed.

End Invoker.

(** C9. A process started without [PATH], on a machine where the executable
    is nowhere: before the call [PATH] is unset, after it [PATH] is set, to
    the empty string. *)
Theorem path_left_empty_when_unset :
  environ Demo.world_without_path !! "PATH" = None /\
  environ (run_gemini_command (Demo.machine false Demo.finished) [VStr "--version"] None 10
             Demo.world_without_path).2 !! "PATH" = Some "".
Proof. split; vm_compute; reflexivity. Qed.

(** C6. A process whose [PATH] is [/opt/x]: the directory [/bin] is a
    candidate and is no entry of [PATH], and it is no entry of the search
    path built for the child either. *)
Theorem bin_directory_left_out :
  let os := Demo.machine false Demo.finished in
  let built := "/home/user/.local/bin:/home/me/.npm-global/bin:/usr/bin:/usr/local/bin:/home/user/.npm-global/bin:/opt/x" in
  (environ Demo.world !! "PATH" = Some "/opt/x") /\
  ("/bin" ∈ additional_paths_in os (environ Demo.world)) /\
  ("/bin" ∉ PyStr.split ":" "/opt/x") /\
  (build_env os Demo.world = (Ok (<["PATH" := built]> (environ Demo.world)), Demo.world)) /\
  ("/bin" ∉ PyStr.split ":" built).
Proof.
  intros os built.
  assert (Hout : forall l : list string, Forall (fun e => "/bin" <> e) l -> "/bin" ∉ l).
  { intros l Hl Hin. eapply Forall_forall in Hl; [|exact Hin]. done. }
  split; [by vm_compute|]. split.
  { unfold additional_paths_in. rewrite !elem_of_cons. auto. }
  split; [apply Hout, (bool_decide_unpack _); by vm_compute|].
  split; [|apply Hout, (bool_decide_unpack _); by vm_compute].
  rewrite build_env_eq. unfold child_env. by do 3 f_equal.
Qed.

(** ** The dispatcher *)

Section Dispatcher.
Context (os : OS).

Lemma declared_names_eq :
  declared_names =
    ["review_code"; "generate_tests"; "security_audit"; "performance_analysis";
     "code_quality_report"; "ask_gemini"].
Proof. reflexivity. Qed.

Lemma call_tool_review_code a : call_tool os "review_code" a = review_code_handler os a.
Proof. reflexivity. Qed.
Lemma call_tool_generate_tests a :
  call_tool os "generate_tests" a = generate_tests_handler os a.
Proof. reflexivity. Qed.
Lemma call_tool_security_audit a :
  call_tool os "security_audit" a = security_audit_handler os a.
Proof. reflexivity. Qed.
Lemma call_tool_performance_analysis a :
  call_tool os "performance_analysis" a = performance_analysis_handler os a.
Proof. reflexivity. Qed.
Lemma call_tool_code_quality_report a :
  call_tool os "code_quality_report" a = code_quality_report_handler os a.
Proof. reflexivity. Qed.
Lemma call_tool_ask_gemini a : call_tool os "ask_gemini" a = ask_gemini_handler os a.
Proof. reflexivity. Qed.

(** C7. A call whose tool name is none of the six declared names raises
    [ValueError] with the text [Unknown tool: <name>] to the caller of
    [call_tool], and leaves the process as it was: no handler is entered
    and nothing else happens. *)
Theorem unknown_tool_fails name arguments w :
  name ∉ declared_names ->
  call_tool os name arguments w =
    (Raise (Exn ValueError ("Unknown tool: " +:+ name)), w).
Proof.
  rewrite declared_names_eq, !not_elem_of_cons.
  intros (? & ? & ? & ? & ? & ? & _).
  unfold call_tool. by rewrite !bool_decide_eq_false_2.
Qed.

Lemma arg_present (arguments : gmap string value) k v w :
  arguments !! k = Some v -> arg arguments k w = (Ok v, w).
Proof. intros H. unfold arg. by rewrite H. Qed.

Lemma arg_missing (arguments : gmap string value) k w :
  arguments !! k = None ->
  arg arguments k w = (Raise (Exn KeyError ("'" +:+ k +:+ "'")), w).
Proof. intros H. unfold arg. by rewrite H. Qed.

Ltac enter_handler :=
  unfold review_code_handler, generate_tests_handler, security_audit_handler,
    performance_analysis_handler, code_quality_report_handler, ask_gemini_handler;
  unfold mbind at 1, M_bind at 1, log at 1; cbv beta iota.

(** C8. For each of the five handlers that work on a path, a call that
    holds the keys required for the tool and whose path names nothing on
    the file system returns one payload that begins with the failure
    glyph and contains [not found]; the call leaves nothing behind but
    its own entry: the invoker is not entered. *)
Theorem missing_path_not_found name key p arguments w :
  (name, key) ∈ file_based ->
  arguments !! key = Some (VStr p) ->
  (forall k, k ∈ required_keys name -> is_Some (arguments !! k)) ->
  os_stat os (VStr p) = None ->
  exists t,
    call_tool os name arguments w = (Ok [text_content t], entered name w) /\
    PyStr.startswith t "❌" = true /\
    PyStr.contains "not found" t = true /\
    invocations (events (entered name w)) = invocations (events w).
Proof.
  unfold file_based. rewrite !elem_of_cons, elem_of_nil.
  intros Hname Hp Hreq Hstat.
  assert (Hinv : invocations (events (entered name w)) = invocations (events w)).
  { unfold entered. cbn [events]. generalize (events w).
    induction l as [|[] l IH]; simpl; congruence. }
  destruct Hname as [H|[H|[H|[H|[H|[]]]]]]; injection H as -> ->.
  - rewrite call_tool_review_code. enter_handler.
    erewrite bind_ok by (by apply arg_present).
    unfold try_except, review_code_try, os_path_exists, mbind, M_bind, mret, M_ret.
    rewrite Hstat. cbn [negb]. eexists. split; [reflexivity|].
    split; [reflexivity|]. split; [reflexivity|done].
  - rewrite call_tool_generate_tests. enter_handler.
    erewrite bind_ok by (by apply arg_present).
    unfold try_except, generate_tests_try, os_path_exists, mbind, M_bind, mret, M_ret.
    rewrite Hstat. cbn [negb]. eexists. split; [reflexivity|].
    split; [reflexivity|]. split; [reflexivity|done].
  - rewrite call_tool_performance_analysis. enter_handler.
    destruct (Hreq "language") as [v Hv];
      [exact (list_elem_of_further _ _ _ (list_elem_of_here _ []))|].
    erewrite bind_ok by (by apply arg_present).
    erewrite bind_ok by (by apply arg_present).
    unfold try_except, performance_analysis_try, os_path_exists, mbind, M_bind, mret, M_ret.
    rewrite Hstat. cbn [negb]. eexists. split; [reflexivity|].
    split; [reflexivity|]. split; [reflexivity|done].
  - rewrite call_tool_code_quality_report. enter_handler.
    erewrite bind_ok by (by apply arg_present).
    unfold try_except, code_quality_report_try, os_path_exists, mbind, M_bind, mret, M_ret.
    rewrite Hstat. cbn [negb]. eexists. split; [reflexivity|].
    split; [reflexivity|]. split; [reflexivity|done].
  - rewrite call_tool_security_audit. enter_handler.
    erewrite bind_ok by (by apply arg_present).
    unfold try_except, security_audit_try, os_path_isfile, os_path_isdir,
      mbind, M_bind, mret, M_ret.
    rewrite Hstat. eexists. split; [reflexivity|].
    split; [reflexivity|]. split; [reflexivity|done].
Qed.

End Dispatcher.

(** ** The security audit *)

Section SecurityAudit.
Context (os : OS).

Lemma invocations_app l1 l2 : invocations (l1 ++ l2) = invocations l1 + invocations l2.
Proof. induction l1 as [|[] l1 IH]; simpl; lia. Qed.

(** One file of the audit: one more entry in the results whatever happens,
    at most one invocation, and the standard error of a failed child is in
    the entry. *)
Lemma audit_file_step acc f w :
  exists entry w' new,
    audit_file os acc f w = (Ok (acc ++ [entry]), w') /\
    events w' = events w ++ new /\
    invocations new <= 1 /\
    reports_stderr new entry.
Proof.
  unfold audit_file, try_except, open_read.
  unfold mbind at 1, M_bind at 1.
  destruct (os_read os f) as [content|e].
  - unfold mbind, M_bind.
    destruct (run_gemini_command os _ None 60 w) as [[cp|e] w2] eqn:Hrun.
    + apply run_gemini_command_history in Hrun as [[? _]|(cmd & env & cwd & Hev)]; [done|].
      destruct (returncode cp =? 0)%Z eqn:Hrc.
      * eexists _, _, _. split; [reflexivity|]. split; [exact Hev|]. split; [simpl; lia|].
        intros ????? Hin Hne. rewrite !elem_of_cons, elem_of_nil in Hin.
        destruct Hin as [?|[[= _ _ _ _ <-]|[]]]; [done|]. apply Z.eqb_eq in Hrc. done.
      * eexists _, _, _. split; [reflexivity|]. split; [exact Hev|]. split; [simpl; lia|].
        intros ????? Hin Hne. rewrite !elem_of_cons, elem_of_nil in Hin.
        destruct Hin as [?|[[= _ _ _ _ <-]|[]]]; [done|].
        at_the_end.
    + apply run_gemini_command_history in Hrun as [[_ Hev]|(cmd & env & cwd & Hev)].
      * eexists _, _, _. split; [reflexivity|]. split; [exact Hev|]. split; [simpl; lia|].
        intros ????? Hin Hne. rewrite !elem_of_cons, elem_of_nil in Hin.
        by destruct Hin as [?|[]].
      * eexists _, _, _. split; [reflexivity|]. split; [exact Hev|]. split; [simpl; lia|].
        intros ????? Hin Hne. rewrite !elem_of_cons, elem_of_nil in Hin.
        by destruct Hin as [?|[?|[]]].
  - exists ("❌ Error reading " +:+ py_str f +:+ ": " +:+ exn_str e), w, [].
    split; [reflexivity|]. split; [by rewrite app_nil_r|]. split; [simpl; lia|].
    intros ????? Hin. by inversion Hin.
Qed.

(** The loop over the files: as many entries as files. *)
Lemma audit_loop files : forall acc w,
  exists results w' new,
    for_each (audit_file os) files acc w = (Ok (acc ++ results), w') /\
    length results = length files /\
    events w' = events w ++ new /\
    invocations new <= length files /\
    (forall t, (forall r, r ∈ results -> PyStr.contains r t = true) -> reports_stderr new t).
Proof.
  induction files as [|f files IH]; intros acc w.
  - exists [], w, []. rewrite !app_nil_r. repeat split; [simpl; lia|].
    intros t _ ????? Hin. by inversion Hin.
  - destruct (audit_file_step acc f w) as (entry & w1 & new1 & Hstep & Hev1 & Hinv1 & Hrep1).
    destruct (IH (acc ++ [entry]) w1) as (results & w2 & new2 & Hrest & Hlen & Hev2 & Hinv2 & Hrep2).
    exists (entry :: results), w2, (new1 ++ new2).
    split. { simpl. erewrite bind_ok by exact Hstep. rewrite Hrest. by rewrite <- app_assoc. }
    split; [simpl; lia|].
    split; [by rewrite Hev2, Hev1, app_assoc|].
    split; [rewrite invocations_app; simpl; lia|].
    intros t Ht ????? Hin Hne. apply elem_of_app in Hin as [Hin|Hin].
    + eapply contains_trans; [by eapply Hrep1|]. apply Ht, list_elem_of_here.
    + eapply Hrep2; [|done..]. intros r Hr. apply Ht. by apply list_elem_of_further.
Qed.

(** The search for the files of the target. *)
Lemma glob_loop p patterns : forall acc w,
  for_each
    (fun files_to_audit pattern =>
       full ← path_join (VStr p) pattern;
       matches ← glob_glob os full;
       mret (files_to_audit ++ (VStr <$> matches)))
    patterns acc w =
  (Ok (acc ++ (VStr <$> flat_map (fun pattern => os_glob os (PosixPath.join p pattern))
                                 patterns)), w).
Proof.
  induction patterns as [|pattern patterns IH]; intros acc w; simpl.
  - by rewrite app_nil_r.
  - erewrite bind_ok by reflexivity.
    rewrite IH. by rewrite fmap_app, app_assoc.
Qed.

(** The [try] block of the audit, case by case. *)
Lemma security_audit_try_eq target level w :
  security_audit_try os target level w =
    match audit_targets os target with
    | Raise e => (Raise e, w)
    | Ok None => (Ok [text_content ("❌ Path not found: " +:+ py_str target)], w)
    | Ok (Some files) =>
        match for_each (audit_file os) (take (max_files level) files) [] w with
        | (Ok results, w') =>
            (Ok [text_content (security_audit_report target level results)], w')
        | (Raise e, w') => (Raise e, w')
        end
    end.
Proof.
  unfold security_audit_try, audit_targets, os_path_isfile, os_path_isdir.
  rewrite bind_ret. cbv beta.
  destruct (os_stat os target) as [[| |]|]; try reflexivity.
  destruct target as [p|b]; [|reflexivity].
  erewrite bind_ok; cycle 1.
  { rewrite bind_ret. cbv beta iota.
    erewrite bind_ok by apply glob_loop. reflexivity. }
  reflexivity.
Qed.

Lemma invocations_entered name w :
  invocations (events (entered name w)) = invocations (events w).
Proof. unfold entered. cbn [events]. rewrite invocations_app. simpl. lia. Qed.

(** The audit enters the invoker at most [max_files] times. *)
Lemma security_audit_invocations arguments w :
  invocations (events (security_audit_handler os arguments w).2) <=
    invocations (events w) + max_files (arg_get arguments "audit_level" (VStr "quick")).
Proof.
  unfold security_audit_handler.
  unfold mbind at 1, M_bind at 1, log at 1. cbv beta iota. fold (entered "security_audit" w).
  destruct (arguments !! "target_path") as [target|] eqn:Htarget.
  - erewrite bind_ok by (by apply arg_present).
    unfold try_except. rewrite security_audit_try_eq.
    destruct (audit_targets os target) as [[files|]|e]; simpl;
      try (rewrite invocations_app; simpl; lia).
    set (level := arg_get arguments "audit_level" (VStr "quick")).
    destruct (audit_loop (take (max_files level) files) [] (entered "security_audit" w))
      as (results & w' & new & -> & _ & Hev & Hinv & _).
    simpl. rewrite Hev, invocations_app, invocations_entered.
    rewrite length_take in Hinv. lia.
  - erewrite bind_raise by (by apply arg_missing).
    simpl. rewrite invocations_app. simpl. lia.
Qed.

(** C4. For every directory handed to [security_audit], whatever the
    patterns match below it, the call enters the invoker at most 10 times
    when [audit_level] is [quick] and at most 20 times when it is [deep]. *)
Theorem audit_file_cap arguments target w :
  arguments !! "target_path" = Some target ->
  os_stat os target = Some Directory ->
  let audited := invocations (events (call_tool os "security_audit" arguments w).2) in
  (arguments !! "audit_level" = Some (VStr "quick") ->
     audited <= invocations (events w) + 10) /\
  (arguments !! "audit_level" = Some (VStr "deep") ->
     audited <= invocations (events w) + 20).
Proof.
  intros _ _ audited. subst audited.
  pose proof (security_audit_invocations arguments w) as H.
  unfold arg_get in H. split; intros Hlevel; rewrite Hlevel in H; exact H.
Qed.




End SecurityAudit.


(** ** The try blocks of the handlers *)

(** Case analysis on what the operating system answers, innermost first. *)
Ltac os_case :=
  match goal with
  | |- context [match ?x with _ => _ end] =>
      lazymatch x with
      | context [match _ with _ => _ end] => fail
      | _ => destruct x eqn:?
      end
  end.

Section TryBlocks.
Context (os : OS).

Lemma no_launch_reports t : reports_stderr [] t.
Proof. intros ????? Hin. by inversion Hin. Qed.

Lemma nothing_new (l new : list event) : l = l ++ new -> new = [].
Proof. intros H. apply (app_inv_head l). by rewrite app_nil_r. Qed.

(** A block whose only launch is the one of [run_gemini_command]. *)
Lemma launch_reports args tm w0 cp w extra new t :
  run_gemini_command os args None tm w0 = (Ok cp, w) ->
  events w ++ extra = events w0 ++ new ->
  Forall (fun ev => match ev with EvSpawn _ _ _ _ _ => False | _ => True end) extra ->
  (returncode cp <> 0%Z -> PyStr.contains (stderr cp) t = true) ->
  reports_stderr new t.
Proof.
  intros Hrun Hev Hextra Ht.
  apply run_gemini_command_history in Hrun as [[? _]|(cmd & env & cwd & Hw)]; [done|].
  rewrite Hw, <- app_assoc in Hev. apply app_inv_head in Hev as <-.
  intros cmd' env' cwd' tm' cp' Hin Hne. simpl in Hin.
  rewrite !elem_of_cons in Hin. destruct Hin as [?|[[= _ _ _ _ <-]|Hin]]; [done|by apply Ht|].
  eapply Forall_forall in Hextra; [|exact Hin]. done.
Qed.

Ltac block_reports :=
  intros new Hnew;
  first
    [ apply nothing_new in Hnew as ->; apply no_launch_reports
    | match goal with
      | Hrun : run_gemini_command _ _ _ _ _ = (Ok _, _) |- _ =>
          eapply (launch_reports _ _ _ _ _ [] _ _ Hrun);
          [by rewrite app_nil_r | by constructor
          | intros Hne;
            first [ at_the_end
                  | match goal with
                    | Hrc : (_ =? 0)%Z = true |- _ => by apply Z.eqb_eq in Hrc
                    end ] ]
      end ].

Ltac block_done :=
  intros Heq;
  first
    [ discriminate Heq
    | injection Heq as <- <-;
      eexists; split; [reflexivity|];
      split; [first [left; reflexivity | right; reflexivity]|];
      block_reports ].

Lemma review_code_try_ok file_path review_type w0 payload w' :
  review_code_try os file_path review_type w0 = (Ok payload, w') ->
  well_formed w0 payload w'.
Proof.
  unfold review_code_try, os_path_exists, open_read, mbind, M_bind, mret, M_ret.
  repeat os_case; block_done.
Qed.

Lemma performance_analysis_try_ok file_path language w0 payload w' :
  performance_analysis_try os file_path language w0 = (Ok payload, w') ->
  well_formed w0 payload w'.
Proof.
  unfold performance_analysis_try, os_path_exists, open_read, mbind, M_bind, mret, M_ret.
  repeat os_case; block_done.
Qed.

Lemma ask_gemini_try_ok prompt include_all_files w0 payload w' :
  ask_gemini_try os prompt include_all_files w0 = (Ok payload, w') ->
  well_formed w0 payload w'.
Proof.
  unfold ask_gemini_try, mbind, M_bind, mret, M_ret.
  repeat os_case; block_done.
Qed.

Lemma generate_tests_try_ok source_file test_framework coverage_level w0 payload w' :
  generate_tests_try os source_file test_framework coverage_level w0 = (Ok payload, w') ->
  well_formed w0 payload w'.
Proof.
  unfold generate_tests_try, os_path_exists, open_read, path_basename, path_splitext,
    os_makedirs_exist_ok, open_write, try_except, raise, log, mbind, M_bind, mret, M_ret.
  repeat os_case; try block_done.
  all: intros Heq; injection Heq as <- <-.
  all: eexists; split; [reflexivity|]; split; [by left|].
  all: intros new Hnew; cbn [events] in Hnew; rewrite <- ?app_assoc in Hnew.
  all: match goal with
       | Hrun : run_gemini_command _ _ _ _ _ = (Ok _, _) |- _ =>
           eapply (launch_reports _ _ _ _ _ _ _ _ Hrun); [exact Hnew| |]
       end.
  all: try (by repeat constructor).
  all: intros Hne;
       match goal with Hrc : (_ =? 0)%Z = true |- _ => by apply Z.eqb_eq in Hrc end.
Qed.

Lemma security_audit_try_ok target_path audit_level w0 payload w' :
  security_audit_try os target_path audit_level w0 = (Ok payload, w') ->
  well_formed w0 payload w'.
Proof.
  rewrite security_audit_try_eq.
  destruct (audit_targets os target_path) as [[files|]|e]; [|block_done..].
  destruct (audit_loop os (take (max_files audit_level) files) [] w0)
    as (results & w1 & new0 & -> & _ & Hev & _ & Hrep).
  intros [= <- <-]. eexists. split; [reflexivity|]. split; [by left|].
  intros new Hnew. rewrite Hev in Hnew. apply app_inv_head in Hnew as <-.
  apply Hrep. intros r Hr. unfold security_audit_report.
  repeat apply contains_app_r. apply contains_join. exists r. split; [done|].
  apply contains_refl.
Qed.

Lemma os_walk_stateless keep top : stateless (os_walk os keep top).
Proof. destruct top; [apply stateless_ret|apply stateless_raise]. Qed.

Lemma path_join_stateless v pattern : stateless (path_join v pattern).
Proof. destruct v; [apply stateless_ret|apply stateless_raise]. Qed.

Lemma open_read_stateless v : stateless (open_read os v).
Proof. by exists (os_read os v). Qed.

Lemma read_key_file_stateless config_content file_path :
  stateless (read_key_file os config_content file_path).
Proof.
  apply stateless_try_except.
  - apply stateless_bind; [apply open_read_stateless|]. intros. apply stateless_ret.
  - intros. apply stateless_ret.
Qed.

Lemma code_quality_report_try_ok project_path include_metrics w0 payload w' :
  code_quality_report_try os project_path include_metrics w0 = (Ok payload, w') ->
  well_formed w0 payload w'.
Proof.
  unfold code_quality_report_try, os_path_exists. rewrite bind_ret. cbv beta.
  destruct (os_stat os project_path); cbn [negb]; [|block_done].
  match goal with |- (?m ≫= ?f) _ = _ -> _ =>
    destruct (stateless_then m f w0) as [[e ->]|[walked ->]];
      [apply os_walk_stateless|done|] end.
  cbv beta zeta.
  match goal with |- (?m ≫= ?f) _ = _ -> _ =>
    destruct (stateless_then m f w0) as [[e ->]|[key_files ->]]; [|done|] end.
  { apply stateless_for_each. intros acc pattern.
    apply stateless_bind; [apply path_join_stateless|]. intros full.
    apply stateless_bind; [apply stateless_ret|]. intros. apply stateless_ret. }
  cbv beta zeta.
  match goal with |- (?m ≫= ?f) _ = _ -> _ =>
    destruct (stateless_then m f w0) as [[e ->]|[config_content ->]]; [|done|] end.
  { apply stateless_for_each. intros. apply read_key_file_stateless. }
  cbv beta zeta. unfold mbind, M_bind, mret, M_ret.
  repeat os_case; block_done.
Qed.

Ltac open_handler :=
  unfold review_code_handler, generate_tests_handler, security_audit_handler,
    performance_analysis_handler, code_quality_report_handler, ask_gemini_handler;
  unfold mbind at 1, M_bind at 1, log at 1; cbv beta iota;
  match goal with
  | |- context [{| environ := environ ?w; events := events ?w ++ [EvHandler ?n] |}] =>
      fold (entered n w)
  end;
  repeat (erewrite bind_ok by (by apply arg_present));
  unfold try_except.
Ltac in_the_text :=
  first [ apply contains_app_l | apply contains_refl
        | apply contains_app_r; in_the_text ].
Ltac boundary Htb w lem :=
  match type of Htb with
  | try_block_of _ _ ?n ?b =>
      exists b;
      destruct (b (entered n w)) as [[?payload|?e] ?w1] eqn:Hblock;
      [ let t := fresh "t" in
        pose proof Hblock as Hkept; apply lem in Hkept as (t & -> & _);
        exists t; eexists; split; [exact Htb|];
        split; [open_handler; by rewrite Hblock|];
        split; [by intros ?? [= <- <-]|by intros ?? [=]]
      | try
          (eexists; eexists; split; [exact Htb|];
           split; [open_handler; rewrite Hblock; reflexivity|];
           split; [by intros ?? [=]|];
           intros ?? [= <- <-]; split; [done|];
           left; split; [reflexivity|at_the_end]) ]
  end.

(** C3. A call of [generate_tests] on a source file that exists and can
    be read, whose child ended with code zero, makes [./tests] and, when
    the directory and the file can be written, writes what the child
    printed to the test file directly under [./tests] and returns the
    success payload that names that file. The name of the test file is put
    together from the base name and the extension of the path (the two
    parts of the file's name) by the extension alone: [<base>.test<ext>]
    for [.js], [.ts], [.jsx], [.tsx]; [test_<base>.py] for [.py];
    [<base>Test.java] for [.java]; [<base>_test<ext>] for anything else.
    So [foo.py] gives [test_foo.py], [Bar.java] gives [BarTest.java] and
    [x.ts] gives [x.test.ts]; the name holds no separator. *)
Theorem test_file_name_by_extension arguments source_file source_code cp w1 w :
  arguments !! "source_file" = Some (VStr source_file) ->
  is_Some (os_stat os (VStr source_file)) ->
  os_read os (VStr source_file) = Ok source_code ->
  run_gemini_command os
    [VStr "--prompt";
     VStr (generate_tests_prompt source_file
             (py_str (arg_get arguments "test_framework" (VStr "jest")))
             (py_str (arg_get arguments "coverage_level" (VStr "comprehensive")))
             source_code)]
    None 120 (entered "generate_tests" w) = (Ok cp, w1) ->
  returncode cp = 0%Z ->
  os_makedirs os "./tests" = None ->
  os_write os (test_file_path source_file) (stdout cp) = None ->
  let base := (PosixPath.splitext (PosixPath.basename source_file)).1 in
  let ext := (PosixPath.splitext source_file).2 in
  let name := test_file_name source_file in
  base +:+ ext = PosixPath.basename source_file /\
  (ext ∈ [".js"; ".ts"; ".jsx"; ".tsx"] -> name = base +:+ ".test" +:+ ext) /\
  (ext = ".py" -> name = "test_" +:+ base +:+ ".py") /\
  (ext = ".java" -> name = base +:+ "Test.java") /\
  (ext ∉ [".js"; ".ts"; ".jsx"; ".tsx"; ".py"; ".java"] ->
     name = base +:+ "_test" +:+ ext) /\
  test_file_name "foo.py" = "test_foo.py" /\
  test_file_name "Bar.java" = "BarTest.java" /\
  test_file_name "x.ts" = "x.test.ts" /\
  PyStr.count "/" name = 0 /\
  exists t,
    call_tool os "generate_tests" arguments w =
      (Ok [text_content t],
       {| environ := environ w1;
          events := events w1 ++
                    [EvMakedirs "./tests"; EvWrite ("./tests/" +:+ name) (stdout cp)] |}) /\
    PyStr.startswith t "✅ Test cases generated and saved!" = true /\
    PyStr.contains ("./tests/" +:+ name) t = true /\
    PyStr.contains (stdout cp) t = true.
Proof.
  intros Hsrc [kind Hstat] Hread Hrun Hrc Hmk Hwr base ext name.
  split; [apply base_ext_join|].
  split. { intros Hext. unfold name, test_file_name, test_file_name_of. fold base ext.
           by rewrite bool_decide_eq_true_2. }
  split. { intros Hext. unfold name, test_file_name, test_file_name_of. fold base ext.
           by rewrite Hext. }
  split. { intros Hext. unfold name, test_file_name, test_file_name_of. fold base ext.
           by rewrite Hext. }
  split. { intros Hext. unfold name, test_file_name, test_file_name_of. fold base ext.
           rewrite !not_elem_of_cons in Hext.
           destruct Hext as (? & ? & ? & ? & ? & ? & _).
           rewrite !bool_decide_eq_false_2; [done|..].
           - rewrite !elem_of_cons, elem_of_nil. tauto.
           - done.
           - rewrite !elem_of_cons, elem_of_nil. tauto. }
  split; [reflexivity|]. split; [reflexivity|]. split; [reflexivity|].
  split; [apply test_file_name_no_sep|].
  rewrite call_tool_generate_tests. unfold generate_tests_handler.
  unfold mbind at 1, M_bind at 1, log at 1. cbv beta iota.
  erewrite bind_ok by (by apply arg_present).
  unfold try_except, generate_tests_try.
  unfold mbind, M_bind, os_path_exists, open_read, mret, M_ret.
  rewrite Hstat, Hread. cbn [negb py_str].
  unfold entered in Hrun. rewrite Hrun, Hrc. cbn [Z.eqb].
  unfold path_basename, path_splitext, os_makedirs_exist_ok, open_write, mret, M_ret.
  rewrite Hmk. cbn [fst snd]. unfold log.
  unfold test_file_path, test_file_name in Hwr. rewrite Hwr.
  unfold try_except. cbn [environ events]. rewrite <- app_assoc. cbn [app].
  eexists. split; [reflexivity|].
  split; [reflexivity|]. split; in_the_text.
Qed.

(** C1, as the code has it. A call to one of the six tools whose argument
    mapping holds the keys that the catalog declares required for the tool
    runs the try block of the handler and returns exactly one text
    payload: no exception reaches the caller of [call_tool]. When the
    block returns, the payload is the block's. When the block raises [e],
    the exception is caught at the handler and turned into a failure
    payload, returned from the state the block had reached: a text that
    begins with the failure glyph and holds [str(e)], or, for a timeout in
    [ask_gemini], the fixed text of the timeout. *)
Theorem handlers_catch_everything name arguments w :
  name ∈ declared_names ->
  (forall k, k ∈ required_keys name -> is_Some (arguments !! k)) ->
  exists block t w',
    try_block_of os arguments name block /\
    call_tool os name arguments w = (Ok [text_content t], w') /\
    (forall payload w1,
       block (entered name w) = (Ok payload, w1) ->
       payload = [text_content t] /\ w1 = w') /\
    (forall e w1,
       block (entered name w) = (Raise e, w1) ->
       w1 = w' /\
       (PyStr.startswith t "❌" = true /\ PyStr.contains (exn_str e) t = true \/
        name = "ask_gemini" /\ exn_cls e = TimeoutExpired /\
        t = "⏰ Gemini request timed out")).
Proof.
  rewrite declared_names_eq, !elem_of_cons, elem_of_nil.
  intros Hname Hreq.
  assert (Hget : forall k, k ∈ required_keys name -> exists v, arguments !! k = Some v).
  { intros k Hk. by destruct (Hreq k Hk) as [v Hv]; exists v. }
  destruct Hname as [->|[->|[->|[->|[->|[->|[]]]]]]].
  - destruct (Hget "file_path") as [v Hv]; [exact (list_elem_of_here _ [])|].
    pose proof (try_review_code os arguments v Hv) as Htb.
    rewrite call_tool_review_code. boundary Htb w review_code_try_ok.
  - destruct (Hget "source_file") as [v Hv]; [exact (list_elem_of_here _ [])|].
    pose proof (try_generate_tests os arguments v Hv) as Htb.
    rewrite call_tool_generate_tests. boundary Htb w generate_tests_try_ok.
  - destruct (Hget "target_path") as [v Hv]; [exact (list_elem_of_here _ [])|].
    pose proof (try_security_audit os arguments v Hv) as Htb.
    rewrite call_tool_security_audit. boundary Htb w security_audit_try_ok.
  - destruct (Hget "file_path") as [v Hv]; [exact (list_elem_of_here _ ["language"])|].
    destruct (Hget "language") as [v' Hv'];
      [exact (list_elem_of_further _ _ _ (list_elem_of_here _ []))|].
    pose proof (try_performance_analysis os arguments v v' Hv Hv') as Htb.
    rewrite call_tool_performance_analysis. boundary Htb w performance_analysis_try_ok.
  - destruct (Hget "project_path") as [v Hv]; [exact (list_elem_of_here _ [])|].
    pose proof (try_code_quality_report os arguments v Hv) as Htb.
    rewrite call_tool_code_quality_report. boundary Htb w code_quality_report_try_ok.
  - destruct (Hget "prompt") as [v Hv]; [exact (list_elem_of_here _ [])|].
    pose proof (try_ask_gemini os arguments v Hv) as Htb.
    rewrite call_tool_ask_gemini. boundary Htb w ask_gemini_try_ok.
    destruct (exn_cls e) eqn:Hcls.
    all: eexists; eexists; split; [exact Htb|].
    all: split; [open_handler; rewrite Hblock, ?Hcls; reflexivity|].
    all: split; [by intros ?? [=]|intros ?? [= <- <-]; split; [done|]].
    all: first [by right; rewrite Hcls | left; split; [reflexivity|at_the_end]].
Qed.


End TryBlocks.


(** * The theorems at work on the concrete machines *)

Lemma fst_pins {A B} (x : A * B) (a : A) : x.1 = a -> x = (a, x.2).
Proof. destruct x as [a' b]. cbn. intros ->. reflexivity. Defined.

(** C1, as stated, fails in two ways. On an argument mapping without the
    required key the [KeyError] of [review_code] reaches the caller of
    [call_tool]. And an exception that an inner [try] catches does not end
    in a failure payload: on a machine where nothing can be written, the
    error of the write in [generate_tests] is caught and the call returns a
    payload that begins with the success glyph and holds the text of the
    error. *)
Lemma review_code_missing_key_escapes :
  call_tool (Demo.machine true Demo.finished) "review_code" ∅ Demo.world =
    (Raise (Exn KeyError "'file_path'"), entered "review_code" Demo.world) /\
  let os := read_only (Demo.machine true Demo.finished) in
  os_write os "./tests/test_a.py" "ok" =
    Some (Exn OSError "[Errno 30] Read-only file system") /\
  match (call_tool os "generate_tests" {[ "source_file" := VStr "a.py" ]} Demo.world).1 with
  | Ok [payload] =>
      PyStr.startswith (text payload) "✅" = true /\
      PyStr.startswith (text payload) "❌" = false /\
      PyStr.contains "[Errno 30] Read-only file system" (text payload) = true
  | _ => False
  end.
Proof. split; [reflexivity|]. split; [reflexivity|]. vm_compute. by repeat split. Qed.

(** [review_code] on [a.py] on the machine whose launches time out: the
    try block raises and the call returns the failure payload. *)
Lemma handlers_catch_everything_witness :
  let os := Demo.machine true Demo.timed_out in
  let arguments : gmap string value := {[ "file_path" := VStr "a.py" ]} in
  ("review_code" ∈ declared_names) /\
  (review_code_try os (VStr "a.py") (VStr "general") (entered "review_code" Demo.world)).1 =
    Raise (Exn TimeoutExpired "Command timed out after 120 seconds") /\
  exists block t w',
    try_block_of os arguments "review_code" block /\
    call_tool os "review_code" arguments Demo.world = (Ok [text_content t], w') /\
    (forall payload w1,
       block (entered "review_code" Demo.world) = (Ok payload, w1) ->
       payload = [text_content t] /\ w1 = w') /\
    (forall e w1,
       block (entered "review_code" Demo.world) = (Raise e, w1) ->
       w1 = w' /\
       (PyStr.startswith t "❌" = true /\ PyStr.contains (exn_str e) t = true \/
        "review_code" = "ask_gemini" /\ exn_cls e = TimeoutExpired /\
        t = "⏰ Gemini request timed out")).
Proof.
  intros os arguments.
  assert (Hname : "review_code" ∈ declared_names) by apply list_elem_of_here.
  split; [exact Hname|]. split; [vm_compute; reflexivity|].
  apply (handlers_catch_everything os "review_code" arguments Demo.world Hname).
  intros k Hk. change (required_keys "review_code") with ["file_path"] in Hk.
  rewrite elem_of_cons, elem_of_nil in Hk. destruct Hk as [->|[]].
  exists (VStr "a.py"). reflexivity.
Defined.

(** A name outside the catalog. *)
Lemma unknown_tool_fails_witness :
  ("format_disk" ∉ declared_names) /\
  call_tool (Demo.machine true Demo.finished) "format_disk" ∅ Demo.world =
    (Raise (Exn ValueError "Unknown tool: format_disk"), Demo.world).
Proof.
  assert (Hname : "format_disk" ∉ declared_names).
  { apply (bool_decide_unpack _). vm_compute. exact I. }
  split; [exact Hname|].
  apply (unknown_tool_fails (Demo.machine true Demo.finished) "format_disk" ∅ Demo.world Hname).
Defined.

(** [review_code] on a path that names nothing. *)
Lemma missing_path_not_found_witness :
  os_stat (Demo.machine true Demo.finished) (VStr "gone.py") = None /\
  exists t,
    call_tool (Demo.machine true Demo.finished) "review_code"
      {[ "file_path" := VStr "gone.py" ]} Demo.world =
      (Ok [text_content t], entered "review_code" Demo.world) /\
    PyStr.startswith t "❌" = true /\
    PyStr.contains "not found" t = true /\
    invocations (events (entered "review_code" Demo.world)) = invocations (events Demo.world).
Proof.
  split; [reflexivity|].
  apply (missing_path_not_found (Demo.machine true Demo.finished) "review_code" "file_path"
           "gone.py" {[ "file_path" := VStr "gone.py" ]} Demo.world).
  - apply list_elem_of_here.
  - reflexivity.
  - intros k Hk. change (required_keys "review_code") with ["file_path"] in Hk.
    rewrite elem_of_cons, elem_of_nil in Hk. destruct Hk as [->|[]].
    exists (VStr "gone.py"). reflexivity.
  - reflexivity.
Defined.

(** A quick audit of [proj], where twelve files match. *)
Lemma audit_file_cap_witness :
  length Demo.proj_files = 12 /\
  invocations
    (events (call_tool (Demo.machine true Demo.finished) "security_audit"
               {[ "target_path" := VStr "proj"; "audit_level" := VStr "quick" ]}
               Demo.world).2) <= invocations (events Demo.world) + 10.
Proof.
  split; [reflexivity|].
  apply (audit_file_cap (Demo.machine true Demo.finished)
           {[ "target_path" := VStr "proj"; "audit_level" := VStr "quick" ]}
           (VStr "proj") Demo.world); reflexivity.
Defined.



(** [generate_tests] on [a.py]: the tests go to [./tests/test_a.py]. *)
Lemma test_file_name_by_extension_witness :
  let os := Demo.machine true Demo.finished in
  let arguments : gmap string value := {[ "source_file" := VStr "a.py" ]} in
  let cp := {| returncode := 0; stdout := "ok"; stderr := "" |} in
  let w1 :=
    (run_gemini_command os
       [VStr "--prompt";
        VStr (generate_tests_prompt "a.py"
                (py_str (arg_get arguments "test_framework" (VStr "jest")))
                (py_str (arg_get arguments "coverage_level" (VStr "comprehensive")))
                "print(1)")]
       None 120 (entered "generate_tests" Demo.world)).2 in
  test_file_name "a.py" = "test_a.py" /\
  let base := (PosixPath.splitext (PosixPath.basename "a.py")).1 in
  let ext := (PosixPath.splitext "a.py").2 in
  let name := test_file_name "a.py" in
  base +:+ ext = PosixPath.basename "a.py" /\
  (ext ∈ [".js"; ".ts"; ".jsx"; ".tsx"] -> name = base +:+ ".test" +:+ ext) /\
  (ext = ".py" -> name = "test_" +:+ base +:+ ".py") /\
  (ext = ".java" -> name = base +:+ "Test.java") /\
  (ext ∉ [".js"; ".ts"; ".jsx"; ".tsx"; ".py"; ".java"] ->
     name = base +:+ "_test" +:+ ext) /\
  test_file_name "foo.py" = "test_foo.py" /\
  test_file_name "Bar.java" = "BarTest.java" /\
  test_file_name "x.ts" = "x.test.ts" /\
  PyStr.count "/" name = 0 /\
  exists t,
    call_tool os "generate_tests" arguments Demo.world =
      (Ok [text_content t],
       {| environ := environ w1;
          events := events w1 ++
                    [EvMakedirs "./tests"; EvWrite ("./tests/" +:+ name) (stdout cp)] |}) /\
    PyStr.startswith t "✅ Test cases generated and saved!" = true /\
    PyStr.contains ("./tests/" +:+ name) t = true /\
    PyStr.contains (stdout cp) t = true.
Proof.
  intros os arguments cp w1. split; [reflexivity|].
  apply (test_file_name_by_extension os arguments "a.py" "print(1)" cp w1 Demo.world).
  - reflexivity.
  - exists RegularFile. reflexivity.
  - reflexivity.
  - apply fst_pins. vm_compute. reflexivity.
  - reflexivity.
  - reflexivity.
  - reflexivity.
Defined.

(** * Further properties of the code *)

(** ** The invoker *)

Section InvokerMore.
Context (os : OS).

(** X1. The environment handed to the child is the environment of the
  process with another [PATH]: every other variable is as in
  [os.environ], the [PATH] of the process (the empty string when it is
  unset) is the tail of the child's, and building it changes nothing in
  the process. *)
Theorem child_environment_frame w :
exists env added,
  build_env os w = (Ok env, w) /\
  (forall k, k <> "PATH" -> env !! k = environ w !! k) /\
  env !! "PATH" = Some (added +:+ default "" (environ w !! "PATH")).
Proof.
destruct (child_path_keeps_original os (environ w)) as [added Hadded].
exists (child_env os (environ w)), added. split; [apply build_env_eq|].
unfold child_env. split.
- intros k Hk. by rewrite lookup_insert_ne.
- by rewrite lookup_insert_eq, Hadded.
Qed.

(** X2. Building the environment again from the environment that was
  built gives the same environment: no directory is prepended a second
  time. *)
Theorem rebuilding_adds_nothing w :
exists env,
  build_env os w = (Ok env, w) /\
  forall history,
    build_env os {| environ := env; events := history |} =
      (Ok env, {| environ := env; events := history |}).
Proof.
exists (child_env os (environ w)). split; [apply build_env_eq|].
intros history. rewrite build_env_eq. cbn [environ].
by rewrite child_env_idempotent.
Qed.

(** X3. A call of the invoker in a process whose [PATH] is set leaves
  [os.environ] exactly as it was, whether the executable is found at once,
  found by the retry of the lookup, or not found. *)
Theorem environ_untouched_when_path_set args working_dir timeout w old :
environ w !! "PATH" = Some old ->
environ (run_gemini_command os args working_dir timeout w).2 = environ w.
Proof.
intros Hold. rewrite run_gemini_command_environ.
destruct (first_usable os _); [done|].
unfold environ_after_retry. rewrite Hold. by apply insert_id.
Qed.

Lemma run_gemini_command_launch args working_dir timeout w :
exists new,
  events (run_gemini_command os args working_dir timeout w).2 = events w ++ new /\
  launches new <= 1 /\
  forall cmd env cwd t outcome,
    EvSpawn cmd env cwd t outcome ∈ new ->
    (exists p, cmd = VStr p :: args) /\
    env = child_env os (environ w) /\
    t = timeout /\
    outcome = (run_gemini_command os args working_dir timeout w).1 /\
    match working_dir with
    | Some d => cwd = d
    | None => cwd = "/home/user" \/ is_Some (os_stat os (VStr cwd))
    end.
Proof.
rewrite run_gemini_command_eq. unfold launch. cbn [environ events].
assert (Hcwd : forall env0,
  match working_dir with
  | Some d => working_dir_in os env0 working_dir = d
  | None => working_dir_in os env0 working_dir = "/home/user" \/
            is_Some (os_stat os (VStr (working_dir_in os env0 working_dir)))
  end).
{ intros env0. destruct working_dir as [d|]; [done|]. unfold working_dir_in.
  destruct (os_stat os (VStr (expanduser_in os env0 "~"))) eqn:E; [right|by left].
  rewrite E. by eexists. }
assert (Hone : forall ev1 ev2 cmd env cwd t outcome,
  ev1 = EvInvoke args timeout ->
  EvSpawn cmd env cwd t outcome ∈ [ev1; ev2] -> EvSpawn cmd env cwd t outcome = ev2).
{ intros ??????? -> Hin. rewrite !elem_of_cons, elem_of_nil in Hin.
  by destruct Hin as [?|[?|[]]]. }
destruct (first_usable os _) as [p|];
  [|destruct (os_which os "gemini" _) as [p|]; [destruct (PyStr.truthy p)|]].
all: cbn [fst snd events].
1,2: eexists [_; _]; split; [by rewrite <- app_assoc|]; split; [simpl; lia|];
     intros cmd env cwd t outcome Hin; eapply Hone in Hin; [|reflexivity];
     injection Hin as -> -> -> -> ->;
     (split; [by eexists|]); do 3 (split; [done|]); apply Hcwd.
all: exists [EvInvoke args timeout]; split; [done|]; split; [simpl; lia|];
     intros cmd env cwd t outcome Hin; rewrite elem_of_cons, elem_of_nil in Hin;
     by destruct Hin as [?|[]].
Qed.


(** X4. A call of the invoker launches at most one child. The child gets
  the executable followed by the arguments of the call as its command,
  the environment built for it, and the timeout of the call; its outcome
  is the outcome of the call. Its working directory is the one given;
  when none is given it is a path that exists or the fixed [/home/user]. *)
Theorem launch_shape args working_dir timeout w :
exists new,
  events (run_gemini_command os args working_dir timeout w).2 = events w ++ new /\
  launches new <= 1 /\
  forall cmd env cwd t outcome,
    EvSpawn cmd env cwd t outcome ∈ new ->
    (exists p, cmd = VStr p :: args) /\
    env = child_env os (environ w) /\
    t = timeout /\
    outcome = (run_gemini_command os args working_dir timeout w).1 /\
    match working_dir with
    | Some d => cwd = d
    | None => cwd = "/home/user" \/ is_Some (os_stat os (VStr cwd))
    end.
Proof. apply run_gemini_command_launch. Qed.

End InvokerMore.

(** A process with [PATH] set, on the machine without the executable. *)
Lemma environ_untouched_when_path_set_witness :
  environ Demo.world !! "PATH" = Some "/opt/x" /\
  environ (run_gemini_command (Demo.machine false Demo.finished) [VStr "--version"] None 10
             Demo.world).2 = environ Demo.world.
Proof.
  assert (H : environ Demo.world !! "PATH" = Some "/opt/x") by reflexivity.
  split; [exact H|].
  exact (environ_untouched_when_path_set (Demo.machine false Demo.finished)
           [VStr "--version"] None 10 Demo.world "/opt/x" H).
Defined.

(** ** What a call leaves behind *)

Section Steps.
Context (R : World -> World -> Prop) `{!PreOrder R}.

Lemma steps_ret {A} (a : A) : steps R (mret a).
Proof. intros w. reflexivity. Qed.

Lemma steps_raise {A} (e : exn) : steps R (raise e : M A).
Proof. intros w. reflexivity. Qed.

Lemma steps_stateless {A} (m : M A) : stateless m -> steps R m.
Proof. intros [r Hr] w. rewrite Hr. reflexivity. Qed.

Lemma steps_bind {A B} (m : M A) (f : A -> M B) :
steps R m -> (forall a, steps R (f a)) -> steps R (m ≫= f).
Proof.
intros Hm Hf w. specialize (Hm w). unfold mbind, M_bind.
destruct (m w) as [[a|e] w1]; [|done].
etransitivity; [exact Hm|apply Hf].
Qed.

Lemma steps_try_except {A} (body : M A) (handler : exn -> M A) :
steps R body -> (forall e, steps R (handler e)) -> steps R (try_except body handler).
Proof.
intros Hb Hh w. specialize (Hb w). unfold try_except.
destruct (body w) as [[a|e] w1]; [done|].
etransitivity; [exact Hb|apply Hh].
Qed.

Lemma steps_for_each {A B} (step : B -> A -> M B) (l : list A) :
(forall acc x, steps R (step acc x)) -> forall acc, steps R (for_each step l acc).
Proof.
intros Hstep. induction l as [|x l IH]; intros acc; simpl.
- apply steps_ret.
- apply steps_bind; [apply Hstep|apply IH].
Qed.
End Steps.

Global Instance extends_preorder Q : PreOrder (extends Q).
Proof.
  split.
  - intros w. exists []. by rewrite app_nil_r.
  - intros w1 w2 w3 (n1 & H1 & Q1) (n2 & H2 & Q2).
    exists (n1 ++ n2). split; [by rewrite H2, H1, app_assoc|by apply Forall_app].
Qed.

Global Instance same_environ_preorder : PreOrder same_environ.
Proof.
  split.
  - by intros w old _.
  - intros w1 w2 w3 H1 H2 old Hold.
    rewrite <- (H1 old Hold). apply (H2 old). by rewrite (H1 old Hold).
Qed.

Section Footprint.
Context (os : OS).

Lemma arg_stateless (arguments : gmap string value) k : stateless (arg arguments k).
Proof. unfold arg. destruct (arguments !! k); [apply stateless_ret|apply stateless_raise]. Qed.

Lemma path_basename_stateless v : stateless (path_basename v).
Proof. destruct v; [apply stateless_ret|apply stateless_raise]. Qed.

Lemma path_splitext_stateless v : stateless (path_splitext v).
Proof. destruct v; [apply stateless_ret|apply stateless_raise]. Qed.

Lemma extends_log Q ev : Q ev -> steps (extends Q) (log ev).
Proof. intros HQ w. exists [ev]. split; [done|]. by constructor. Qed.

Lemma extends_run Q args working_dir timeout :
Q (EvInvoke args timeout) ->
(forall p env cwd outcome, Q (EvSpawn (VStr p :: args) env cwd timeout outcome)) ->
steps (extends Q) (run_gemini_command os args working_dir timeout).
Proof.
intros Hinvoke Hspawn w.
destruct (run_gemini_command_launch os args working_dir timeout w)
  as (new & Hev & _ & Hshape).
exists new. split; [done|]. apply Forall_forall. intros ev Hin.
assert (Hhist := run_gemini_command_history os args working_dir timeout w _ _
                   (surjective_pairing _)).
destruct Hhist as [[_ Hev']|(cmd & env & cwd & Hev')];
  rewrite Hev' in Hev; apply app_inv_head in Hev as <-.
- rewrite elem_of_cons, elem_of_nil in Hin. by destruct Hin as [->|[]].
- rewrite !elem_of_cons, elem_of_nil in Hin. destruct Hin as [->|[->|[]]]; [done|].
  destruct (Hshape cmd env cwd timeout _ (list_elem_of_further _ _ _ (list_elem_of_here _ _)))
    as ([p ->] & _). apply Hspawn.
Qed.

Lemma extends_makedirs Q path :
Q (EvMakedirs path) -> steps (extends Q) (os_makedirs_exist_ok os path).
Proof.
intros HQ. unfold os_makedirs_exist_ok.
destruct (os_makedirs os path); [apply steps_raise, _|by apply extends_log].
Qed.

Lemma extends_write Q path content :
Q (EvWrite path content) -> steps (extends Q) (open_write os path content).
Proof.
intros HQ. unfold open_write.
destruct (os_write os path content); [apply steps_raise, _|by apply extends_log].
Qed.

Lemma same_environ_log ev : steps same_environ (log ev).
Proof. by intros w old _. Qed.

Lemma same_environ_run args working_dir timeout :
steps same_environ (run_gemini_command os args working_dir timeout).
Proof. intros w old Hold. by eapply environ_restored_when_set. Qed.

Lemma same_environ_makedirs path : steps same_environ (os_makedirs_exist_ok os path).
Proof.
unfold os_makedirs_exist_ok.
destruct (os_makedirs os path); [apply steps_raise, _|apply same_environ_log].
Qed.

Lemma same_environ_write path content : steps same_environ (open_write os path content).
Proof.
unfold open_write.
destruct (os_write os path content); [apply steps_raise, _|apply same_environ_log].
Qed.

End Footprint.

Ltac solve_preorder := try exact _.

Ltac stateless_step :=
  first [ apply arg_stateless | apply open_read_stateless | apply path_join_stateless
        | apply os_walk_stateless | apply path_basename_stateless
        | apply path_splitext_stateless | apply read_key_file_stateless ].

(** Through a computation along its structure; [base] closes the steps that
    touch the process. *)
Ltac through base :=
  repeat (cbv zeta;
    first
      [ base
      | apply steps_bind; [solve_preorder| |intros ?]
      | apply steps_try_except; [solve_preorder| |intros ?]
      | apply steps_for_each; [solve_preorder|intros ? ?]
      | apply steps_stateless; [solve_preorder|stateless_step]
      | apply steps_ret; solve_preorder
      | apply steps_raise; solve_preorder
      | match goal with
        | |- steps _ (if ?b then _ else _) => destruct b
        | |- steps _ (match ?x with _ => _ end) => destruct x
        end ]).

Ltac footprint_base :=
  first
    [ apply extends_log; exact eq_refl
    | apply extends_run;
        [ split; [reflexivity|try case_match; by eexists]
        | intros; split; [reflexivity|try case_match; by eexists _, _] ]
    | apply extends_makedirs; by split
    | apply extends_write; split; [done|apply prefix_app] ].

Ltac environ_base :=
  first [ apply same_environ_log | apply same_environ_run
        | apply same_environ_makedirs | apply same_environ_write ].

Ltac unfold_handlers :=
  unfold call_tool;
  repeat case_bool_decide; subst;
  unfold review_code_handler, review_code_try,
    generate_tests_handler, generate_tests_try,
    security_audit_handler, security_audit_try, audit_file,
    performance_analysis_handler, performance_analysis_try,
    code_quality_report_handler, code_quality_report_try,
    ask_gemini_handler, ask_gemini_try.

Section Calls.
Context (os : OS).

(** X5. Whatever the name, the arguments and the machine, a call of
  [call_tool] only adds to the history of the process, and what it adds is
  bounded by the tool: every entry into the invoker carries the timeout of
  the tool (90 for [review_code] and [performance_analysis], 120 for
  [generate_tests] and [ask_gemini], 60 per file for [security_audit], 150
  for [code_quality_report]) and arguments that begin with [--prompt];
  every launch carries that timeout and a command whose second word is
  [--prompt]; and no directory is made and no file is written except by
  [generate_tests], which makes [./tests] and writes below [./tests/]. *)
Theorem call_footprint name arguments :
steps (extends (allowed name)) (call_tool os name arguments).
Proof.
unfold_handlers; through footprint_base.
Qed.

(** X6. A tool call in a process whose [PATH] is set leaves [os.environ]
  exactly as it was, whatever the tool, the arguments and the machine. *)
Theorem call_keeps_environ name arguments w old :
environ w !! "PATH" = Some old ->
environ (call_tool os name arguments w).2 = environ w.
Proof.
revert w old. change (steps same_environ (call_tool os name arguments)).
unfold_handlers; through environ_base.
Qed.

End Calls.

(** ** The arguments of a call *)

Ltac enter_tool :=
  unfold call_tool; repeat (case_bool_decide; simplify_eq); try done;
  unfold review_code_handler, generate_tests_handler, security_audit_handler,
    performance_analysis_handler, code_quality_report_handler, ask_gemini_handler.

Ltac lookups :=
  repeat match goal with
         | H : ?a !! ?k = _ |- context [?a !! ?k] => rewrite H
         end.

Ltac inserts :=
  repeat match goal with
         | |- context [<[?i:=?x]> ?m !! ?j] =>
             first [ rewrite (lookup_insert_ne m i j x) by done
                   | rewrite (lookup_insert_eq m i x) ]
         end.

Section Arguments.
Context (os : OS).

(** X7. A call that lacks a key which the catalog declares required for
  the tool, while it holds the required keys declared before it, raises
  [KeyError] with the quoted key to the caller of [call_tool]; nothing
  has happened by then but the entry into the handler. *)
Theorem missing_argument_raises tool arguments pre k post w :
required_keys tool = pre ++ k :: post ->
(forall k', k' ∈ pre -> is_Some (arguments !! k')) ->
arguments !! k = None ->
call_tool os tool arguments w =
  (Raise (Exn KeyError ("'" +:+ k +:+ "'")), entered tool w).
Proof.
intros Hreq Hpre Hk.
unfold required_keys, list_tools in Hreq.
cbn [flat_map name inputSchema required app] in Hreq.
enter_tool.
all: cbn [app] in Hreq; destruct pre as [|k1 [|k2 pre]]; cbn [app] in Hreq; simplify_eq.
all: try match goal with H : [] = ?p ++ _ :: _ |- _ => by destruct p end.
all: try (destruct (Hpre "file_path") as [v Hv]; [by constructor|]).
all: unfold mbind, M_bind, log, arg; lookups; reflexivity.
Qed.

(** X8. A call reads the arguments that the catalog declares for the tool
  and no others: two argument mappings that agree on the declared
  properties give the same result and leave the same process. *)
Theorem undeclared_arguments_ignored name a b w :
(forall k, k ∈ declared_properties name -> a !! k = b !! k) ->
call_tool os name a w = call_tool os name b w.
Proof.
intros H. enter_tool; unfold arg, arg_get;
  repeat match goal with
         | |- context [a !! ?k] => rewrite (H k) by (vm_compute; repeat constructor)
         end;
  reflexivity.
Qed.

(** X9. Leaving an optional argument out is the same as passing the value
  that the handler takes for it: [general] for [review_type], [jest] for
  [test_framework], [comprehensive] for [coverage_level], [quick] for
  [audit_level], [True] for [include_metrics] and [False] for
  [include_all_files]. *)
Theorem omitted_optional_is_default name key d arguments w :
(name, key, d) ∈ optional_defaults ->
arguments !! key = None ->
call_tool os name (<[key := d]> arguments) w = call_tool os name arguments w.
Proof.
unfold optional_defaults. rewrite !elem_of_cons, elem_of_nil.
intros Hin Hnone.
destruct Hin as [H|[H|[H|[H|[H|[H|[]]]]]]]; injection H as -> -> ->.
all: enter_tool; unfold arg, arg_get.
all: inserts; rewrite ?Hnone; reflexivity.
Qed.

Lemma prompts_get_other review_type file_path code_content :
review_type ∉ [VStr "security"; VStr "performance"; VStr "style"] ->
prompts_get review_type file_path code_content = prompt_general file_path code_content.
Proof.
rewrite !not_elem_of_cons. intros (? & ? & ? & _).
unfold prompts_get, list_find. cbn [fst snd fmap option_fmap option_map].
repeat (case_decide; simplify_eq); reflexivity.
Qed.

(** X10. A review whose [review_type] is none of [security], [performance]
  and [style], a boolean included, sends what a [general] review sends:
  the two calls leave the same process behind, launch for launch. *)
Theorem unknown_review_type_is_general arguments review_type w :
arguments !! "review_type" = Some review_type ->
review_type ∉ [VStr "security"; VStr "performance"; VStr "style"] ->
(call_tool os "review_code" arguments w).2 =
  (call_tool os "review_code" (<["review_type" := VStr "general"]> arguments) w).2.
Proof.
intros Hrt Hother. enter_tool. unfold arg, arg_get.
inserts. rewrite Hrt. cbn [default].
unfold mbind, M_bind, log, mret, M_ret.
destruct (arguments !! "file_path") as [file_path|]; [|reflexivity].
unfold try_except, review_code_try.
unfold mbind, M_bind, os_path_exists, open_read, mret, M_ret.
destruct (negb _); [reflexivity|].
destruct (os_read os file_path) as [code_content|]; [|reflexivity].
rewrite (prompts_get_other review_type) by done.
change (prompts_get (VStr "general") (py_str file_path) code_content)
  with (prompt_general (py_str file_path) code_content).
destruct (run_gemini_command _ _ _ _ _) as [[cp|e] w1]; [|reflexivity].
by destruct (returncode cp =? 0)%Z.
Qed.

End Arguments.

(** ** What the handlers send and report *)

Ltac somewhere :=
  first [ apply contains_app_l | apply contains_refl | apply contains_or_else
        | apply contains_app_r; somewhere ].

Section Handlers.
Context (os : OS).

Lemma run_gemini_command_trace args working_dir timeout w :
exists rest,
  events (run_gemini_command os args working_dir timeout w).2 =
    events w ++ EvInvoke args timeout :: rest /\
  (rest = [] \/
   exists p env cwd,
     rest = [EvSpawn (VStr p :: args) env cwd timeout
               (run_gemini_command os args working_dir timeout w).1]).
Proof.
rewrite run_gemini_command_eq. unfold launch. cbn [environ events].
destruct (first_usable os _) as [p|];
  [|destruct (os_which os "gemini" _) as [p|]; [destruct (PyStr.truthy p)|]].
all: cbn [fst snd events]; rewrite <- ?app_assoc; cbn [app].
1,2: eexists; split; [reflexivity|]; right; by eexists _, _, _.
all: eexists; split; [reflexivity|]; by left.
Qed.

(** X11. [ask_gemini] enters the invoker once, with [--prompt] and the
  prompt as it came, followed by [--all_files] exactly when
  [include_all_files] is given and true; what the invoker launches, if
  anything, is an executable with these arguments. *)
Theorem ask_gemini_all_files_flag arguments prompt w :
arguments !! "prompt" = Some prompt ->
let flag := py_truthy (arg_get arguments "include_all_files" (VBool false)) in
let args := [VStr "--prompt"; prompt] ++ (if flag then [VStr "--all_files"] else []) in
exists rest,
  events (call_tool os "ask_gemini" arguments w).2 =
    events w ++ EvHandler "ask_gemini" :: EvInvoke args 120 :: rest /\
  (rest = [] \/
   exists p env cwd outcome, rest = [EvSpawn (VStr p :: args) env cwd 120 outcome]).
Proof.
intros Hp. cbv zeta. enter_tool.
unfold mbind, M_bind, log, arg, mret, M_ret. rewrite Hp.
unfold try_except, ask_gemini_try, mbind, M_bind, mret, M_ret.
match goal with
| |- context [run_gemini_command os ?a None 120 ?w1] =>
    destruct (run_gemini_command_trace a None 120 w1) as (rest & Hev & Hrest);
    destruct (run_gemini_command os a None 120 w1) as [[cp|e] w2]
end.
all: exists rest; split;
  [ first [destruct (returncode cp =? 0)%Z | destruct (exn_cls e)];
    cbn [snd events] in *; rewrite Hev, <- app_assoc;
    by destruct (py_truthy _)
  | destruct Hrest as [->|(p & env & cwd & ->)]; [by left|right];
    destruct (py_truthy _); by eexists _, _, _, _ ].
Qed.

(** X12. When Gemini has returned the tests and the directory [./tests]
  could be made but the test file cannot be written, the tests are not
  lost: the call still returns a success payload, which holds the text of
  the error and the tests that Gemini wrote; nothing is recorded as
  written. *)
Theorem unsaved_tests_still_returned arguments p source_code cp w1 e w :
arguments !! "source_file" = Some (VStr p) ->
is_Some (os_stat os (VStr p)) ->
os_read os (VStr p) = Ok source_code ->
run_gemini_command os
  [VStr "--prompt";
   VStr (generate_tests_prompt p
           (py_str (arg_get arguments "test_framework" (VStr "jest")))
           (py_str (arg_get arguments "coverage_level" (VStr "comprehensive")))
           source_code)]
  None 120 (entered "generate_tests" w) = (Ok cp, w1) ->
returncode cp = 0%Z ->
os_makedirs os "./tests" = None ->
os_write os (test_file_path p) (stdout cp) = Some e ->
exists t,
  call_tool os "generate_tests" arguments w =
    (Ok [text_content t],
     {| environ := environ w1; events := events w1 ++ [EvMakedirs "./tests"] |}) /\
  PyStr.startswith t "✅" = true /\
  PyStr.contains (exn_str e) t = true /\
  PyStr.contains (stdout cp) t = true.
Proof.
intros Hp [kind Hstat] Hread Hrun Hrc Hmk Hwr. enter_tool.
unfold mbind at 1, M_bind at 1, log. cbv beta iota.
erewrite bind_ok by (by apply arg_present).
unfold try_except, generate_tests_try.
unfold mbind, M_bind, os_path_exists, open_read, mret, M_ret.
rewrite Hstat, Hread. cbn [negb py_str].
unfold entered in Hrun. rewrite Hrun, Hrc. cbn [Z.eqb].
unfold path_basename, path_splitext, os_makedirs_exist_ok, open_write, mret, M_ret.
rewrite Hmk. cbn [fst snd]. unfold log.
unfold test_file_path, test_file_name in Hwr. rewrite Hwr.
unfold raise. eexists. split; [reflexivity|].
split; [reflexivity|]. split; somewhere.
Qed.

Lemma run_gemini_command_invocations args working_dir timeout w :
invocations (events (run_gemini_command os args working_dir timeout w).2) =
  invocations (events w) + 1.
Proof.
destruct (run_gemini_command_trace args working_dir timeout w) as (rest & -> & Hrest).
rewrite invocations_app.
destruct Hrest as [->|(p & env & cwd & ->)]; simpl; lia.
Qed.

Lemma audit_file_invocations acc f w :
invocations (events (audit_file os acc f w).2) =
  invocations (events w) + (if readable os f then 1 else 0).
Proof.
unfold audit_file, try_except, open_read, readable.
unfold mbind at 1, M_bind at 1.
destruct (os_read os f) as [content|e]; [|simpl; lia].
unfold mbind, M_bind.
match goal with
| |- context [run_gemini_command os ?a None 60 w] =>
    pose proof (run_gemini_command_invocations a None 60 w) as Hrun;
    destruct (run_gemini_command os a None 60 w) as [[cp|e] w2]
end.
- by destruct (returncode cp =? 0)%Z.
- done.
Qed.

Lemma audit_loop_invocations files : forall acc w,
invocations (events (for_each (audit_file os) files acc w).2) =
  invocations (events w) + length (filter (fun f => readable os f = true) files).
Proof.
induction files as [|f files IH]; intros acc w; [simpl; lia|].
cbn [for_each]. unfold mbind, M_bind.
pose proof (audit_file_invocations acc f w) as Hf.
destruct (audit_file_step os acc f w) as (entry & w1 & new & Hstep & _).
rewrite Hstep in *. cbn [snd] in Hf. rewrite IH, Hf, filter_cons.
destruct (readable os f); [rewrite decide_True by done|rewrite decide_False by done];
  simpl; lia.
Qed.

(** X13. A security audit enters the invoker once for every file, among
  those it takes, that can be opened and read, and for no other: a file
  that cannot be read is reported without a call to Gemini. *)
Theorem audit_launches_readable_files arguments target files w :
arguments !! "target_path" = Some target ->
audit_targets os target = Ok (Some files) ->
invocations (events (call_tool os "security_audit" arguments w).2) =
  invocations (events w) +
  length (filter (fun f => readable os f = true)
            (take (max_files (arg_get arguments "audit_level" (VStr "quick"))) files)).
Proof.
intros Ht Hfiles. enter_tool.
unfold mbind at 1, M_bind at 1, log. cbv beta iota.
erewrite bind_ok by (by apply arg_present).
unfold try_except. rewrite security_audit_try_eq, Hfiles.
match goal with
| |- context [for_each (audit_file os) ?l [] ?w1] =>
    pose proof (audit_loop_invocations l [] w1) as Hloop;
    destruct (for_each (audit_file os) l [] w1) as [[results|e] w2]
end.
all: unfold mret, M_ret; cbn [snd events] in *; rewrite Hloop, invocations_app; simpl; lia.
Qed.

Lemma read_key_file_step acc f w :
exists s,
  read_key_file os acc f w = (Ok (acc +:+ s), w) /\
  (readable os (VStr f) = true -> PyStr.contains f s = true).
Proof.
unfold read_key_file, try_except, open_read, readable, mbind, M_bind, mret, M_ret.
destruct (os_read os (VStr f)) as [whole|e].
- eexists. split; [reflexivity|]. intros _. somewhere.
- exists "". split; [by rewrite app_nil_r_str|done].
Qed.

(** X14. The loop over the key files of a project never fails and touches
  nothing in the process: a key file that cannot be read is passed over,
  what was gathered before is kept in front, and the path of every key
  file that can be read is in the text. *)
Theorem key_files_gathered files : forall acc w,
exists s,
  for_each (read_key_file os) files acc w = (Ok (acc +:+ s), w) /\
  forall f, f ∈ files -> readable os (VStr f) = true -> PyStr.contains f s = true.
Proof.
induction files as [|f files IH]; intros acc w.
- exists "". split; [by rewrite app_nil_r_str|]. intros f Hf. by apply elem_of_nil in Hf.
- destruct (read_key_file_step acc f w) as (s1 & Hstep & Hs1).
  destruct (IH (acc +:+ s1) w) as (s2 & Hrest & Hs2).
  exists (s1 +:+ s2). split.
  + cbn [for_each]. erewrite bind_ok by exact Hstep.
    by rewrite Hrest, app_assoc_str.
  + intros g Hg Hread. apply elem_of_cons in Hg as [->|Hg].
    * by apply contains_app_mid, Hs1.
    * by apply contains_app_r, Hs2.
Qed.

Lemma prompts_get_carries review_type file_path code_content :
PyStr.contains file_path (prompts_get review_type file_path code_content) = true /\
PyStr.contains code_content (prompts_get review_type file_path code_content) = true.
Proof.
unfold prompts_get, list_find. cbn [fst snd fmap option_fmap option_map].
repeat (case_decide; simplify_eq); cbn [fst snd option_map];
  unfold prompt_security, prompt_performance, prompt_style, prompt_general;
  split; somewhere.
Qed.

(** X15. A review, a test generation and a performance analysis of a file
  that exists and can be read enter the invoker with [--prompt] and one
  prompt, under the timeout of the tool, and the prompt holds the path of
  the file and the whole of its content. *)
Theorem prompt_carries_file tool key arguments p code w :
(tool, key) ∈ [("review_code", "file_path"); ("generate_tests", "source_file");
               ("performance_analysis", "file_path")] ->
arguments !! key = Some (VStr p) ->
(forall k, k ∈ required_keys tool -> is_Some (arguments !! k)) ->
is_Some (os_stat os (VStr p)) ->
os_read os (VStr p) = Ok code ->
exists prompt rest,
  events (call_tool os tool arguments w).2 =
    events w ++ EvHandler tool ::
      EvInvoke [VStr "--prompt"; VStr prompt] (tool_timeout tool) :: rest /\
  PyStr.contains p prompt = true /\
  PyStr.contains code prompt = true.
Proof.
rewrite !elem_of_cons, elem_of_nil.
intros Hin Hp Hreq [kind Hstat] Hread.
destruct Hin as [H|[H|[H|[]]]]; injection H as -> ->.
3: destruct (Hreq "language") as [language Hl];
     [exact (list_elem_of_further _ _ _ (list_elem_of_here _ []))|].
all: enter_tool; unfold mbind at 1, M_bind at 1, log; cbv beta iota.
all: repeat (erewrite bind_ok by (by apply arg_present)).
all: unfold try_except, review_code_try, generate_tests_try, performance_analysis_try.
all: unfold mbind, M_bind, os_path_exists, open_read, mret, M_ret.
all: rewrite Hstat, Hread; cbn [negb py_str].
all: match goal with
     | |- context [run_gemini_command os ?a None ?t ?w1] =>
         destruct (run_gemini_command_trace a None t w1) as (rest & Hev & _);
         destruct (run_gemini_command os a None t w1) as [[cp|e] w2]
     end.
all: cbn [snd events] in Hev.
all: try destruct (returncode cp =? 0)%Z.
all: unfold try_except, path_basename, path_splitext, os_makedirs_exist_ok, open_write,
       mret, M_ret, raise, log.
all: repeat match goal with
            | |- context [match ?x with Some _ => _ | None => _ end] => destruct x
            end.
all: cbn [snd events]; rewrite Hev, <- ?app_assoc; cbn [app].
all: eexists _, _; (split; [reflexivity|]).
all: first [apply prompts_get_carries | unfold generate_tests_prompt, performance_analysis_prompt; split; somewhere].
Qed.

End Handlers.

(** ** The start of the server and the test script *)

Ltac printed Hprint Hchoice :=
  repeat (first [rewrite Hprint | rewrite Hchoice]; cbv beta iota).

Section Startup.
Context (os : OS).

(** X16. The test of the executable at the start of [main] never stops the
  server from starting: whatever the machine, it returns, having entered
  the invoker once with [--version] under a timeout of 10 and launched at
  most one child. *)
Theorem startup_test_never_fails w :
exists w' rest,
  main_availability_test os w = (Ok tt, w') /\
  events w' = events w ++ EvInvoke [VStr "--version"] 10 :: rest /\
  launches rest <= 1.
Proof.
unfold main_availability_test, try_except, mbind, M_bind, mret, M_ret.
destruct (run_gemini_command_trace os [VStr "--version"] None 10 w) as (rest & Hev & Hrest).
destruct (run_gemini_command os [VStr "--version"] None 10 w) as [[cp|e] w2].
all: try destruct (returncode cp =? 0)%Z.
all: exists w2, rest; split; [reflexivity|]; split; [exact Hev|].
all: destruct Hrest as [->|(p & env & cwd & ->)]; simpl; lia.
Qed.

Lemma test_step args timeout w :
exists l,
  events (run_gemini_command os args None timeout w).2 = events w ++ l /\
  match (run_gemini_command os args None timeout w).1 with
  | Ok cp => if (returncode cp =? 0)%Z then passed args timeout l else failed args timeout l
  | Raise _ => failed args timeout l
  end.
Proof.
destruct (run_gemini_command_history os args None timeout w _ _ (surjective_pairing _))
  as [[Hr Hev]|(cmd & env & cwd & Hev)].
- eexists. split; [exact Hev|]. rewrite Hr. by left.
- eexists. split; [exact Hev|].
  destruct (run_gemini_command os args None timeout w).1 as [cp|e] eqn:Hr.
  + destruct (returncode cp =? 0)%Z eqn:Hrc.
    * apply Z.eqb_eq in Hrc. by eexists _, _, _, _.
    * apply Z.eqb_neq in Hrc. right. eexists _, _, _, _. split; [reflexivity|].
      by intros cp' [= <-].
  + right. eexists _, _, _, _. split; [reflexivity|]. by intros cp' [=].
Qed.

(** X17. On a standard output that takes every text, the test script never
  raises. It runs its three tests in order, [--version] and [--help]
  under a timeout of 15 and the prompt under 30, each of them one call of
  the invoker; it stops at the first test whose call raises or returns a
  code other than 0 and then gives [False]; it gives [True] exactly when
  each of the three launched a child that returned 0. *)
Theorem test_script_verdict stdout_write w :
(forall s, stdout_write s = None) ->
exists b w' new,
  test_gemini_cli os stdout_write w = (Ok b, w') /\
  events w' = events w ++ new /\
  script_run script_tests b new.
Proof.
intros Hout.
assert (Hprint : forall s w0, print stdout_write s w0 = (Ok tt, w0)).
{ intros s w0. unfold print. by rewrite Hout. }
assert (Hchoice : forall (c : bool) s1 s2 w0,
          (if c then print stdout_write s1 else print stdout_write s2) w0 = (Ok tt, w0)).
{ intros [] s1 s2 w0; apply Hprint. }
unfold test_gemini_cli, script_tests, try_except, mbind, M_bind, mret, M_ret.
printed Hprint Hchoice.
destruct (test_step [VStr "--version"] 15 w) as (l1 & Hev1 & H1).
destruct (run_gemini_command os [VStr "--version"] None 15 w) as [[cp1|e1] w1];
  cbn [fst snd] in *; [destruct (returncode cp1 =? 0)%Z|]; printed Hprint Hchoice.
2,3: eexists _, _, _; split; [reflexivity|]; split; [exact Hev1|]; by apply script_fail.
destruct (test_step [VStr "--help"] 15 w1) as (l2 & Hev2 & H2).
destruct (run_gemini_command os [VStr "--help"] None 15 w1) as [[cp2|e2] w2];
  cbn [fst snd] in *; [destruct (returncode cp2 =? 0)%Z|]; printed Hprint Hchoice.
2,3: eexists _, _, _; split; [reflexivity|];
     split; [by rewrite Hev2, Hev1, <- app_assoc|];
     apply script_pass; [done|]; by apply script_fail.
destruct (test_step [VStr "--prompt"; VStr test_prompt] 30 w2) as (l3 & Hev3 & H3).
destruct (run_gemini_command os [VStr "--prompt"; VStr test_prompt] None 30 w2)
  as [[cp3|e3] w3];
  cbn [fst snd] in *; [destruct (returncode cp3 =? 0)%Z|]; printed Hprint Hchoice.
2,3: eexists _, _, _; split; [reflexivity|];
     split; [by rewrite Hev3, Hev2, Hev1, <- !app_assoc|];
     apply script_pass; [done|]; apply script_pass; [done|]; by apply script_fail.
eexists _, _, (l1 ++ l2 ++ l3 ++ []); split; [reflexivity|].
split; [by rewrite Hev3, Hev2, Hev1, app_nil_r, <- !app_assoc|].
repeat (apply script_pass; [done|]). apply script_end.
Qed.

(** X19. Every directory of the list in [run_gemini_command], the home
  directory's [.npm-global/bin] among them, occurs in the [PATH] that the
  child gets. *)
Theorem child_path_mentions_every_directory w dir :
dir ∈ "/home/user/.npm-global/bin" :: additional_paths_in os (environ w) ->
exists env cp,
  build_env os w = (Ok env, w) /\
  env !! "PATH" = Some cp /\
  PyStr.contains dir cp = true.
Proof.
intros Hdir. exists (child_env os (environ w)), (child_path os (environ w)).
split; [apply build_env_eq|]. split; [apply lookup_insert_eq|].
by apply child_path_contains.
Qed.

End Startup.

(** ** A machine without the executable *)

Global Instance calm_preorder os : PreOrder (calm os).
Proof.
  split.
  - intros w Hw. split; [done|reflexivity].
  - intros w1 w2 w3 H12 H23 Hw1.
    destruct (H12 Hw1) as [Hw2 E12]. destruct (H23 Hw2) as [Hw3 E23].
    split; [done|]. by etransitivity.
Qed.

Section WithoutExecutable.
Context (os : OS).

Lemma run_without_executable args working_dir timeout w :
without_fixed os w ->
(forall path, os_which os "gemini" path = None) ->
run_gemini_command os args working_dir timeout w =
  (Raise not_found,
   {| environ := environ_after_retry (environ w);
      events := events w ++ [EvInvoke args timeout] |}).
Proof.
intros Hfixed Hwhich. rewrite run_gemini_command_eq. cbv zeta.
assert (first_usable os (gemini_locations_in os (environ w)) = None) as ->.
{ apply first_usable_None. unfold gemini_locations_in.
  repeat (constructor; [apply Hfixed; unfold fixed_locations_in; set_solver|]).
  rewrite Hwhich. by repeat constructor. }
by rewrite Hwhich.
Qed.

Lemma without_fixed_after_retry w history :
without_fixed os w ->
without_fixed os {| environ := environ_after_retry (environ w); events := history |}.
Proof.
intros Hfixed l Hl. apply Hfixed. revert Hl.
unfold fixed_locations_in, environ_after_retry. cbn [environ].
by rewrite expanduser_in_insert_path.
Qed.

Lemma calm_log ev : quiet ev -> steps (calm os) (log ev).
Proof.
intros Hq w Hw. split; [exact Hw|].
exists [ev]. split; [done|]. by constructor.
Qed.

Lemma calm_run {B} args working_dir timeout (f : CompletedProcess -> M B) :
(forall path, os_which os "gemini" path = None) ->
steps (calm os) (run_gemini_command os args working_dir timeout ≫= f).
Proof.
intros Hwhich w Hw. unfold mbind, M_bind.
rewrite run_without_executable by done. cbn [snd].
split; [by apply without_fixed_after_retry|].
exists [EvInvoke args timeout]. split; [done|]. by constructor.
Qed.

(** X18. On a machine where none of the candidate locations of the
  executable is usable and the search-path lookup finds nothing, no tool
  launches anything, makes a directory or writes a file: all that a call
  leaves in the history is its entry into the handler and its entries
  into the invoker. Other files of the machine may well be executable. *)
Theorem no_executable_no_launch name arguments w :
(forall l, l ∈ fixed_locations_in os (environ w) -> usable os (Some l) = false) ->
(forall path, os_which os "gemini" path = None) ->
exists new,
  events (call_tool os name arguments w).2 = events w ++ new /\
  Forall quiet new.
Proof.
intros Hfixed Hwhich.
assert (Hcalm : steps (calm os) (call_tool os name arguments)).
{ unfold_handlers;
    through ltac:(first [ apply calm_log; exact I | by apply calm_run ]). }
by destruct (Hcalm w Hfixed) as [_ Hnew].
Qed.

End WithoutExecutable.

(** ** What reaches the caller *)

Lemma launches_app l1 l2 : launches (l1 ++ l2) = launches l1 + launches l2.
Proof. induction l1 as [|[] l1 IH]; simpl; lia. Qed.

Section Escapes.
Context (os : OS).

(** X20. Only two exceptions reach the caller of [call_tool]: the
  [ValueError] for a name outside the catalog, raised before anything
  happens, and the [KeyError] for a required key that the arguments lack,
  raised on entry into the handler. *)
Theorem escaping_exceptions tool arguments w e w' :
call_tool os tool arguments w = (Raise e, w') ->
((tool ∉ declared_names) /\ e = Exn ValueError ("Unknown tool: " +:+ tool) /\ w' = w) \/
(exists k, k ∈ required_keys tool /\ arguments !! k = None /\
           e = Exn KeyError ("'" +:+ k +:+ "'") /\ w' = entered tool w).
Proof.
assert (Hcaught : forall (body : M (list TextContent)) handler w0,
          (forall e0 w1, exists a w2, handler e0 w1 = (Ok a, w2)) ->
          try_except body handler w0 <> (Raise e, w')).
{ intros body handler w0 Hh Heq.
  destruct (try_except_returns body handler w0 Hh) as (a & w2 & Hok). congruence. }
unfold call_tool. repeat case_bool_decide; subst.
7: { intros [= <- <-]. left. split; [|done].
     rewrite declared_names_eq, !not_elem_of_cons. repeat split; try done.
     apply not_elem_of_nil. }
all: unfold review_code_handler, generate_tests_handler, security_audit_handler,
       performance_analysis_handler, code_quality_report_handler, ask_gemini_handler.
all: unfold mbind, M_bind, log, arg, mret, M_ret, raise.
all: repeat match goal with
            | |- context [match ?a !! ?k with Some _ => _ | None => _ end] =>
                destruct (a !! k) eqn:?
            end.
all: try (intros Heq; exfalso; revert Heq; apply Hcaught; intros e0 w1;
          try destruct (exn_cls e0); by eexists _, _).
all: intros [= <- <-]; right; eexists; split; [|by split].
all: vm_compute; repeat constructor.
Qed.

(** X21. [ask_gemini] on a machine where none of the candidate locations
  of the executable is usable and the search-path lookup finds nothing
  returns the payload of its own branch for a missing executable, a
  failure that names the Gemini CLI, after one entry into the invoker and
  without a launch. *)
Theorem ask_gemini_reports_missing_executable arguments prompt w :
arguments !! "prompt" = Some prompt ->
(forall l, l ∈ fixed_locations_in os (environ w) -> usable os (Some l) = false) ->
(forall path, os_which os "gemini" path = None) ->
exists w',
  call_tool os "ask_gemini" arguments w =
    (Ok [text_content ("❌ Gemini CLI not found: " +:+ not_found_message)], w') /\
  invocations (events w') = invocations (events w) + 1 /\
  launches (events w') = launches (events w).
Proof.
intros Hp Hfixed Hwhich. enter_tool.
unfold mbind at 1, M_bind at 1, log. cbv beta iota.
erewrite bind_ok by (by apply arg_present).
unfold try_except, ask_gemini_try, mbind, M_bind.
rewrite run_without_executable by done.
eexists. split; [reflexivity|]. cbn [events].
split.
- rewrite !invocations_app. simpl. lia.
- rewrite !launches_app. simpl. lia.
Qed.

End Escapes.

(** * The further properties at work on the concrete machines *)

(** [review_code] on [a.py] in a process whose [PATH] is set. *)
Lemma call_keeps_environ_witness :
  let os := Demo.machine true Demo.finished in
  let arguments : gmap string value := {[ "file_path" := VStr "a.py" ]} in
  environ Demo.world !! "PATH" = Some "/opt/x" /\
  environ (call_tool os "review_code" arguments Demo.world).2 = environ Demo.world.
Proof.
  intros os arguments.
  assert (H : environ Demo.world !! "PATH" = Some "/opt/x") by reflexivity.
  split; [exact H|].
  exact (call_keeps_environ os "review_code" arguments Demo.world "/opt/x" H).
Defined.

(** [performance_analysis] with a file and without a language. *)
Lemma missing_argument_raises_witness :
  let os := Demo.machine true Demo.finished in
  let arguments : gmap string value := {[ "file_path" := VStr "a.py" ]} in
  required_keys "performance_analysis" = ["file_path"] ++ "language" :: [] /\
  call_tool os "performance_analysis" arguments Demo.world =
    (Raise (Exn KeyError ("'" +:+ "language" +:+ "'")),
     entered "performance_analysis" Demo.world).
Proof.
  intros os arguments.
  assert (Hreq : required_keys "performance_analysis" = ["file_path"] ++ "language" :: [])
    by reflexivity.
  split; [exact Hreq|].
  apply (missing_argument_raises os "performance_analysis" arguments ["file_path"] "language"
           [] Demo.world Hreq).
  - intros k Hk. apply elem_of_cons in Hk as [->|Hk]; [|by apply elem_of_nil in Hk].
    exists (VStr "a.py"). reflexivity.
  - reflexivity.
Defined.

(** [review_code] with a key that the catalog does not declare. *)
Lemma undeclared_arguments_ignored_witness :
  let os := Demo.machine true Demo.finished in
  let a : gmap string value := {[ "file_path" := VStr "a.py" ]} in
  let b : gmap string value := {[ "file_path" := VStr "a.py"; "verbose" := VBool true ]} in
  b !! "verbose" = Some (VBool true) /\
  call_tool os "review_code" a Demo.world = call_tool os "review_code" b Demo.world.
Proof.
  intros os a b. split; [reflexivity|].
  apply (undeclared_arguments_ignored os "review_code" a b Demo.world).
  intros k Hk. change (declared_properties "review_code") with ["file_path"; "review_type"] in Hk.
  apply elem_of_cons in Hk as [->|Hk]; [reflexivity|].
  apply elem_of_cons in Hk as [->|Hk]; [reflexivity|].
  by apply elem_of_nil in Hk.
Defined.

(** [security_audit] with [audit_level] left out and with [quick]. *)
Lemma omitted_optional_is_default_witness :
  let os := Demo.machine true Demo.finished in
  let arguments : gmap string value := {[ "target_path" := VStr "a.py" ]} in
  arguments !! "audit_level" = None /\
  call_tool os "security_audit" (<["audit_level" := VStr "quick"]> arguments) Demo.world =
    call_tool os "security_audit" arguments Demo.world.
Proof.
  intros os arguments. split; [reflexivity|].
  apply (omitted_optional_is_default os "security_audit" "audit_level" (VStr "quick")
           arguments Demo.world).
  - do 3 apply list_elem_of_further. apply list_elem_of_here.
  - reflexivity.
Defined.

(** A review of the type [thorough]. *)
Lemma unknown_review_type_is_general_witness :
  let os := Demo.machine true Demo.finished in
  let arguments : gmap string value :=
    {[ "file_path" := VStr "a.py"; "review_type" := VStr "thorough" ]} in
  arguments !! "review_type" = Some (VStr "thorough") /\
  (call_tool os "review_code" arguments Demo.world).2 =
    (call_tool os "review_code" (<["review_type" := VStr "general"]> arguments) Demo.world).2.
Proof.
  intros os arguments.
  assert (H : arguments !! "review_type" = Some (VStr "thorough")) by reflexivity.
  split; [exact H|].
  apply (unknown_review_type_is_general os arguments (VStr "thorough") Demo.world H).
  intros Hin.
  apply elem_of_cons in Hin as [Hin|Hin]; [discriminate Hin|].
  apply elem_of_cons in Hin as [Hin|Hin]; [discriminate Hin|].
  apply elem_of_cons in Hin as [Hin|Hin]; [discriminate Hin|].
  by apply elem_of_nil in Hin.
Defined.

(** [ask_gemini] with [include_all_files] true. *)
Lemma ask_gemini_all_files_flag_witness :
  let os := Demo.machine true Demo.finished in
  let arguments : gmap string value :=
    {[ "prompt" := VStr "ping"; "include_all_files" := VBool true ]} in
  arguments !! "prompt" = Some (VStr "ping") /\
  let flag := py_truthy (arg_get arguments "include_all_files" (VBool false)) in
  let args := [VStr "--prompt"; VStr "ping"] ++ (if flag then [VStr "--all_files"] else []) in
  exists rest,
    events (call_tool os "ask_gemini" arguments Demo.world).2 =
      events Demo.world ++ EvHandler "ask_gemini" :: EvInvoke args 120 :: rest /\
    (rest = [] \/
     exists p env cwd outcome, rest = [EvSpawn (VStr p :: args) env cwd 120 outcome]).
Proof.
  intros os arguments.
  assert (H : arguments !! "prompt" = Some (VStr "ping")) by reflexivity.
  split; [exact H|].
  exact (ask_gemini_all_files_flag os arguments (VStr "ping") Demo.world H).
Defined.

(** [generate_tests] on [a.py] on the machine where nothing can be written. *)
Lemma unsaved_tests_still_returned_witness :
  let os := read_only (Demo.machine true Demo.finished) in
  let arguments : gmap string value := {[ "source_file" := VStr "a.py" ]} in
  let cp := {| returncode := 0; stdout := "ok"; stderr := "" |} in
  let e := Exn OSError "[Errno 30] Read-only file system" in
  let w1 :=
    (run_gemini_command os
       [VStr "--prompt";
        VStr (generate_tests_prompt "a.py"
                (py_str (arg_get arguments "test_framework" (VStr "jest")))
                (py_str (arg_get arguments "coverage_level" (VStr "comprehensive")))
                "print(1)")]
       None 120 (entered "generate_tests" Demo.world)).2 in
  os_write os (test_file_path "a.py") (stdout cp) = Some e /\
  exists t,
    call_tool os "generate_tests" arguments Demo.world =
      (Ok [text_content t],
       {| environ := environ w1; events := events w1 ++ [EvMakedirs "./tests"] |}) /\
    PyStr.startswith t "✅" = true /\
    PyStr.contains (exn_str e) t = true /\
    PyStr.contains (stdout cp) t = true.
Proof.
  intros os arguments cp e w1.
  assert (Hwr : os_write os (test_file_path "a.py") (stdout cp) = Some e) by reflexivity.
  split; [exact Hwr|].
  apply (unsaved_tests_still_returned os arguments "a.py" "print(1)" cp w1 e Demo.world).
  - reflexivity.
  - exists RegularFile. reflexivity.
  - reflexivity.
  - apply fst_pins. vm_compute. reflexivity.
  - reflexivity.
  - reflexivity.
  - exact Hwr.
Defined.

(** The audit of the one file [a.py], which can be read. *)
Lemma audit_launches_readable_files_witness :
  let os := Demo.machine true Demo.finished in
  let arguments : gmap string value := {[ "target_path" := VStr "a.py" ]} in
  audit_targets os (VStr "a.py") = Ok (Some [VStr "a.py"]) /\
  invocations (events (call_tool os "security_audit" arguments Demo.world).2) =
    invocations (events Demo.world) +
    length (filter (fun f => readable os f = true)
              (take (max_files (arg_get arguments "audit_level" (VStr "quick")))
                    [VStr "a.py"])).
Proof.
  intros os arguments.
  assert (H : audit_targets os (VStr "a.py") = Ok (Some [VStr "a.py"])) by reflexivity.
  split; [exact H|].
  exact (audit_launches_readable_files os arguments (VStr "a.py") [VStr "a.py"] Demo.world
           eq_refl H).
Defined.

(** [review_code] on [a.py], whose content is [print(1)]. *)
Lemma prompt_carries_file_witness :
  let os := Demo.machine true Demo.finished in
  let arguments : gmap string value := {[ "file_path" := VStr "a.py" ]} in
  os_read os (VStr "a.py") = Ok "print(1)" /\
  exists prompt rest,
    events (call_tool os "review_code" arguments Demo.world).2 =
      events Demo.world ++ EvHandler "review_code" ::
        EvInvoke [VStr "--prompt"; VStr prompt] (tool_timeout "review_code") :: rest /\
    PyStr.contains "a.py" prompt = true /\
    PyStr.contains "print(1)" prompt = true.
Proof.
  intros os arguments.
  assert (Hread : os_read os (VStr "a.py") = Ok "print(1)") by reflexivity.
  split; [exact Hread|].
  apply (prompt_carries_file os "review_code" "file_path" arguments "a.py" "print(1)"
           Demo.world).
  - apply list_elem_of_here.
  - reflexivity.
  - intros k Hk. change (required_keys "review_code") with ["file_path"] in Hk.
    apply elem_of_cons in Hk as [->|Hk]; [|by apply elem_of_nil in Hk].
    exists (VStr "a.py"). reflexivity.
  - exists RegularFile. reflexivity.
  - exact Hread.
Defined.

(** [ask_gemini] on the machine with a shell and without the executable. *)
Lemma no_executable_no_launch_witness :
  let os := with_shell (Demo.machine false Demo.finished) in
  let arguments : gmap string value := {[ "prompt" := VStr "ping" ]} in
  usable os (Some "/bin/sh") = true /\
  exists new,
    events (call_tool os "ask_gemini" arguments Demo.world).2 = events Demo.world ++ new /\
    Forall quiet new.
Proof.
  intros os arguments. split; [reflexivity|].
  apply (no_executable_no_launch os "ask_gemini" arguments Demo.world).
  - intros l Hl.
    change (fixed_locations_in os (environ Demo.world))
      with ["/home/user/.npm-global/bin/gemini"; "/usr/local/bin/gemini";
            "/usr/bin/gemini"; "/home/me/.npm-global/bin/gemini"] in Hl.
    apply elem_of_cons in Hl as [->|Hl]; [reflexivity|].
    apply elem_of_cons in Hl as [->|Hl]; [reflexivity|].
    apply elem_of_cons in Hl as [->|Hl]; [reflexivity|].
    apply elem_of_cons in Hl as [->|Hl]; [reflexivity|].
    by apply elem_of_nil in Hl.
  - intros path. reflexivity.
Defined.

(** [/bin] occurs in the search path built from [/opt/x]. *)
Lemma child_path_mentions_every_directory_witness :
  let os := Demo.machine false Demo.finished in
  ("/bin" ∈ "/home/user/.npm-global/bin" :: additional_paths_in os (environ Demo.world)) /\
  exists env cp,
    build_env os Demo.world = (Ok env, Demo.world) /\
    env !! "PATH" = Some cp /\
    PyStr.contains "/bin" cp = true.
Proof.
  intros os.
  assert (H : "/bin" ∈ "/home/user/.npm-global/bin" :: additional_paths_in os (environ Demo.world)).
  { do 3 apply list_elem_of_further. apply list_elem_of_here. }
  split; [exact H|].
  exact (child_path_mentions_every_directory os Demo.world "/bin" H).
Defined.

(** The [KeyError] of [review_code] without its file. *)
Lemma escaping_exceptions_witness :
  let os := Demo.machine true Demo.finished in
  let e := Exn KeyError "'file_path'" in
  call_tool os "review_code" ∅ Demo.world = (Raise e, entered "review_code" Demo.world) /\
  (("review_code" ∉ declared_names) /\
   e = Exn ValueError ("Unknown tool: " +:+ "review_code") /\
   entered "review_code" Demo.world = Demo.world \/
   exists k, k ∈ required_keys "review_code" /\ (∅ : gmap string value) !! k = None /\
             e = Exn KeyError ("'" +:+ k +:+ "'") /\
             entered "review_code" Demo.world = entered "review_code" Demo.world).
Proof.
  intros os e.
  assert (H : call_tool os "review_code" ∅ Demo.world =
              (Raise e, entered "review_code" Demo.world)) by reflexivity.
  split; [exact H|].
  exact (escaping_exceptions os "review_code" ∅ Demo.world e
           (entered "review_code" Demo.world) H).
Defined.

(** [ask_gemini] on the machine with a shell and without the executable. *)
Lemma ask_gemini_reports_missing_executable_witness :
  let os := with_shell (Demo.machine false Demo.finished) in
  let arguments : gmap string value := {[ "prompt" := VStr "ping" ]} in
  arguments !! "prompt" = Some (VStr "ping") /\
  exists w',
    call_tool os "ask_gemini" arguments Demo.world =
      (Ok [text_content ("❌ Gemini CLI not found: " +:+ not_found_message)], w') /\
    invocations (events w') = invocations (events Demo.world) + 1 /\
    launches (events w') = launches (events Demo.world).
Proof.
  intros os arguments.
  assert (H : arguments !! "prompt" = Some (VStr "ping")) by reflexivity.
  split; [exact H|].
  apply (ask_gemini_reports_missing_executable os arguments (VStr "ping") Demo.world H).
  - intros l Hl.
    change (fixed_locations_in os (environ Demo.world))
      with ["/home/user/.npm-global/bin/gemini"; "/usr/local/bin/gemini";
            "/usr/bin/gemini"; "/home/me/.npm-global/bin/gemini"] in Hl.
    apply elem_of_cons in Hl as [->|Hl]; [reflexivity|].
    apply elem_of_cons in Hl as [->|Hl]; [reflexivity|].
    apply elem_of_cons in Hl as [->|Hl]; [reflexivity|].
    apply elem_of_cons in Hl as [->|Hl]; [reflexivity|].
    by apply elem_of_nil in Hl.
  - intros path. reflexivity.
Defined.

(** The script on the machine with the executable, on a standard output
    that takes everything: the three tests pass. *)
Lemma test_script_verdict_witness :
  let os := Demo.machine true Demo.finished in
  let stdout_write : string -> option exn := fun _ => None in
  (test_gemini_cli os stdout_write Demo.world).1 = Ok true /\
  exists b w' new,
    test_gemini_cli os stdout_write Demo.world = (Ok b, w') /\
    events w' = events Demo.world ++ new /\
    script_run script_tests b new.
Proof.
  intros os stdout_write. split; [vm_compute; reflexivity|].
  exact (test_script_verdict os stdout_write Demo.world (fun s => eq_refl)).
Defined.
